(** * Base Rewards Estimator: the scoring model

    A shallow embedding of the deterministic core of the application,
    [computeScores] and [mapScoreToRewards] of [services/scoringUtils.ts]
    and [deriveStats] of [services/geminiService.ts], and of the
    orchestration around it, [getOnChainData] and [getRewardEstimate].

    Number model.  A JavaScript [number] is modelled as a real number and
    the arithmetic operators as exact real arithmetic; [Math.log],
    [Math.log10] and [Math.exp] are the mathematical functions, used on the
    arguments on which they are real numbers (the logarithms on [count + 1]
    for a count that is not negative).  The program evaluates the same
    formulas in binary64, within a few units in the last place of the
    exact value; where the exact value sits on a rounding tie the program
    may round to either neighbour.  The theorems on what a rounding
    returns are therefore stated up to [binary64_slack], and none of them
    says which way a tie goes.

    Effect model.  The program awaits two collaborators, the RPC provider
    and the text generator.  Each call is modelled by its outcome, and a
    function that can throw returns a [completion]. *)

From Stdlib Require Import Reals Lra Lia ZArith String List.
From Stdlib Require Import DecimalString.
Import ListNotations.

Open Scope R_scope.

(** ** The JavaScript built-ins the program calls *)

Module Js.

Definition Math_floor (x : R) : R := IZR (Zfloor x).
Definition Math_ceil (x : R) : R := IZR (Zceil x).

(** [Math.round] rounds to the nearest integer, ties towards +infinity. *)
Definition Math_round (x : R) : R := IZR (Zfloor (x + / 2)).

Definition Math_min (x y : R) : R := Rmin x y.
Definition Math_max (x y : R) : R := Rmax x y.
Definition Math_exp (x : R) : R := exp x.
Definition Math_log (x : R) : R := ln x.
Definition Math_log10 (x : R) : R := ln x / ln 10.

(** [parseFloat(x.toFixed(f))].  [toFixed] takes the sign off, picks the
    integer [n] with [n / 10^f] nearest to the magnitude (the larger one
    on a tie) and prints it with [f] decimals; from [10^21] on it prints
    the number itself, which [parseFloat] reads back unchanged.  Here the
    magnitude is the exact value; the program hands [toFixed] the binary64
    value, which can fall on the other side of a tie of the exact one. *)
Definition fixed_digits (f : nat) (x : R) : Z := Zfloor (x * 10 ^ f + / 2).

Definition toFixed_num (f : nat) (x : R) : R :=
  if Rle_dec (10 ^ 21) (Rabs x) then x
  else if Rlt_dec x 0 then - (IZR (fixed_digits f (- x)) / 10 ^ f)
  else IZR (fixed_digits f x) / 10 ^ f.

(** [x.toFixed(f)] as a string, of the exact value and for magnitudes
    below [10^21]; from there on JavaScript prints exponent notation, which
    this rendering does not produce. *)
Definition zero_pad (f : nat) (d : string) : string :=
  (String.concat "" (repeat "0" (f - String.length d)) ++ d)%string.

Definition render_fixed (f : nat) (n : Z) : string :=
  let p := (10 ^ Z.of_nat f)%Z in
  let int_part := NilZero.string_of_uint (N.to_uint (Z.to_N (n / p))) in
  let frac := NilZero.string_of_uint (N.to_uint (Z.to_N (n mod p))) in
  match f with
  | O => int_part
  | _ => (int_part ++ "." ++ zero_pad f frac)%string
  end.

Definition toFixed (f : nat) (x : R) : string :=
  if Rlt_dec x 0 then ("-" ++ render_fixed f (fixed_digits f (- x)))%string
  else render_fixed f (fixed_digits f x).

#[local] Set Warnings "-register-all".

(** JavaScript values, as far as [JSON.parse] produces them. *)
Inductive JsValue :=
| JsUndefined
| JsNull
| JsBool (b : bool)
| JsNumber (r : R)
| JsString (s : string)
| JsArray (items : list JsValue)
| JsObject (fields : list (string * JsValue)).

(** A computation either returns or throws. *)
Inductive completion (A : Type) :=
| Returns (a : A)
| Throws.
Arguments Returns {A} a.
Arguments Throws {A}.

Definition bind {A B} (c : completion A) (k : A -> completion B)
  : completion B :=
  match c with
  | Returns a => k a
  | Throws => Throws
  end.

(** [try { body } catch { handler }] where both branches return. *)
Definition try_catch {A} (body : completion A) (handler : A) : A :=
  match body with
  | Returns a => a
  | Throws => handler
  end.

Fixpoint own_property (key : string) (fields : list (string * JsValue))
  : JsValue :=
  match fields with
  | [] => JsUndefined
  | (k, v) :: rest =>
      if String.eqb k key then v else own_property key rest
  end.

(** [v.key]: a TypeError on [undefined] and [null], the property of an
    object, [undefined] on anything else (no value met here carries a
    property of the names the program reads). *)
Definition get_property (v : JsValue) (key : string) : completion JsValue :=
  match v with
  | JsUndefined | JsNull => Throws
  | JsObject fields => Returns (own_property key fields)
  | _ => Returns JsUndefined
  end.

End Js.

Import Js.

(** ** services/scoringUtils.ts *)

Record MappingPoint := { score : R; pct : R }.

Definition POOL_SIZE : R := 1000000000.

Definition MAPPING_POINTS : list MappingPoint :=
  [ {| score := 0.00; pct := 0.0000000 |};
    {| score := 0.25; pct := 0.0000002 |};
    {| score := 0.50; pct := 0.0000015 |};
    {| score := 0.75; pct := 0.0000045 |};
    {| score := 1.00; pct := 0.0000120 |} ].

Definition point_at (i : nat) : MappingPoint :=
  nth i MAPPING_POINTS {| score := 0; pct := 0 |}.

(** The body of the [for] loop of [mapScoreToRewards], from index [i] with
    [n] iterations left; [None] when the loop runs to its end. *)
Fixpoint mapping_loop (n i : nat) (s : R) : option R :=
  match n with
  | O => None
  | S n' =>
      let p1 := point_at i in
      let p2 := point_at (i + 1) in
      if Rge_dec s (score p1) then
        if Rle_dec s (score p2) then
          let t := (s - score p1) / (score p2 - score p1) in
          let pct' := pct p1 + t * (pct p2 - pct p1) in
          Some (Math_round (POOL_SIZE * pct'))
        else mapping_loop n' (S i) s
      else mapping_loop n' (S i) s
  end.

Definition mapScoreToRewards (s : R) : R :=
  if Rle_dec s 0 then 0
  else
    match mapping_loop (length MAPPING_POINTS - 1) 0 s with
    | Some r => r
    | None => Math_round (POOL_SIZE * pct (point_at (length MAPPING_POINTS - 1)))
    end.

Record ScoreBreakdown := {
  txScore : R;
  activeDaysScore : R;
  protocolScore : R;
  volumeScore : R;
  recencyScore : R;
  finalScore : R
}.

(** The sub-scores and the weighted sum as [computeScores] computes them,
    before anything is rounded. *)
Definition raw_txScore (txCount : R) : R :=
  Math_min (Math_log10 (txCount + 1) / 3) 1.

Definition raw_activeDaysScore (activeDays : R) : R :=
  Math_min (activeDays / 365) 1.

Definition raw_protocolScore (protocols : R) : R :=
  Math_min (protocols / 8) 1.

Definition raw_volumeScore (volumeUSD : R) : R :=
  Math_min (Math_log10 (volumeUSD + 1) / 5.8) 1.

Definition raw_recencyScore (recencyDays : R) : R :=
  if Rle_dec recencyDays 7 then 1
  else Math_max 0 (1 - (recencyDays - 7) / 83).

Definition raw_finalScore (tx ad pr vol rec : R) : R :=
  (tx * 0.35) + (ad * 0.25) + (pr * 0.20) + (vol * 0.15) + (rec * 0.05).

(** [recencyDays] is an optional parameter with default [2]. *)
Definition computeScores
    (txCount activeDays protocols volumeUSD : R) (recencyDays : option R)
  : ScoreBreakdown :=
  let recencyDays := match recencyDays with Some d => d | None => 2 end in
  let txScore := raw_txScore txCount in
  let activeDaysScore := raw_activeDaysScore activeDays in
  let protocolScore := raw_protocolScore protocols in
  let volumeScore := raw_volumeScore volumeUSD in
  let recencyScore := raw_recencyScore recencyDays in
  let finalScore :=
    raw_finalScore txScore activeDaysScore protocolScore volumeScore
      recencyScore in
  {| txScore := toFixed_num 2 txScore;
     activeDaysScore := toFixed_num 2 activeDaysScore;
     protocolScore := toFixed_num 2 protocolScore;
     volumeScore := toFixed_num 2 volumeScore;
     recencyScore := toFixed_num 2 recencyScore;
     finalScore := toFixed_num 3 finalScore |}.

(** ** services/geminiService.ts: the statistics deriver *)

Record DerivedStats := {
  activeDays : R;
  volumeUSD : R;
  volumeMethod : string;
  protocols : R;
  recencyDays : R
}.

Definition MAX_BASE_DAYS : R := 560.
Definition SATURATION_K : R := 0.0012.

Definition meaningfulTxCount (rawTxCount : R) : R :=
  Math_floor (rawTxCount * 0.8).

Definition estimatedActiveDays (rawTxCount : R) : R :=
  if Rgt_dec rawTxCount 0 then
    Math_round (MAX_BASE_DAYS * (1 - Math_exp (- rawTxCount * SATURATION_K)))
  else 0.

(** The two mutable locals [baseOpValue] and [tierLabel] after the
    transaction-count test. *)
Definition base_tier (rawTxCount : R) : R * string :=
  if Rge_dec rawTxCount 50 then (41.5, "Regular (~$42/tx)"%string)
  else (15, "Casual (~$15/op)"%string).

(** [wealthMultiplier] and [tierLabel] after the two balance tests, which
    run one after the other: the second overwrites what the first set. *)
Definition wealth_tier (balance : R) (tierLabel : string) : R * string :=
  let st := (1, tierLabel) in
  let st := if Rgt_dec balance 0.5 then (2.5, "Active (~$100/tx)"%string)
            else st in
  let st := if Rgt_dec balance 5.0 then (12, "Whale (~$500/tx)"%string)
            else st in
  st.

Definition estimatedProtocols (m : R) : R :=
  if Req_dec_T m 0 then 0
  else Math_min (Math_ceil (Math_log (m + 1) * 2.1)) 30.

Definition estimatedRecencyDays (m : R) : R :=
  if Req_dec_T m 0 then 90
  else Math_max 1 (Math_floor (30 / (Math_log (m + 1) + 0.1))).

Definition deriveStats (rawTxCount balance : R) : DerivedStats :=
  let m := meaningfulTxCount rawTxCount in
  let '(baseOpValue, tierLabel) := base_tier rawTxCount in
  let '(wealthMultiplier, tierLabel) := wealth_tier balance tierLabel in
  let estimatedVolumeUSD := rawTxCount * baseOpValue * wealthMultiplier in
  {| activeDays := estimatedActiveDays rawTxCount;
     volumeUSD := Math_round estimatedVolumeUSD;
     volumeMethod := tierLabel;
     protocols := estimatedProtocols m;
     recencyDays := estimatedRecencyDays m |}.

(** ** services/geminiService.ts: the orchestrator *)

Notation "x <- c ;; k" := (bind c (fun x => k))
  (at level 61, c at next level, right associativity).

(** What the two provider calls of [getOnChainData] do: both resolve, with
    the balance in wei and the transaction count, or the call rejects. *)
Inductive RpcOutcome :=
| RpcResolves (balanceWei : Z) (txCount : Z)
| RpcRejects.

Module RealData.
Record t := { balance : R; txCount : R; error : option string }.
End RealData.

(** [formatEther] prints wei / 10^18 exactly and [parseFloat] reads it, here
    without the rounding to the nearest binary64 number. *)
Definition formatEther_num (balanceWei : Z) : R := IZR balanceWei / 10 ^ 18.

Definition getOnChainData (rpc : RpcOutcome) : completion RealData.t :=
  Returns
    (try_catch
       (match rpc with
        | RpcResolves balanceWei txCount =>
            Returns {| RealData.balance := formatEther_num balanceWei;
                       RealData.txCount := IZR txCount;
                       RealData.error := None |}
        | RpcRejects => Throws
        end)
       {| RealData.balance := 0;
          RealData.txCount := 0;
          RealData.error := Some "Could not fetch on-chain data"%string |}).

(** What the narrative call does: [generateContent] rejects, or it resolves
    with a response whose [text] is empty or missing, or it resolves with a
    text on which [JSON.parse] throws or returns a value. *)
Inductive NarrativeOutcome :=
| GenerateContentRejects
| ResponseWithoutText
| ResponseText (parsed : completion JsValue).

Module Stats.
Record t := {
  balance : string;
  txCount : R;
  activeDays : R;
  volumeUSD : R;
  volumeMethod : string;
  protocols : R
}.
End Stats.

Record EstimationResult := {
  activityScore : R;
  estimatedRewards : R;
  stats : Stats.t;
  scoreBreakdown : ScoreBreakdown;
  explanation : JsValue;
  suggestions : JsValue
}.

Definition empty_text_narrative : JsValue :=
  JsObject
    [ ("explanation"%string,
       JsString "Analysis complete based on your on-chain activity pattern.");
      ("suggestions"%string,
       JsArray [ JsString "Maintain weekly activity";
                 JsString "Try Aerodrome or Moonwell";
                 JsString "Increase transaction volume" ]) ].

Definition catch_explanation : JsValue :=
  JsString "We calculated your score based on your wallet activity pattern.".

Definition catch_suggestions : JsValue :=
  JsArray [ JsString "Interact with more protocols";
            JsString "Increase transaction volume";
            JsString "Maintain monthly activity" ].

(** The prompt that [getRewardEstimate] builds from the numbers is text for
    the generator only and is left out; building it does not throw. *)
Definition getRewardEstimate (rpc : RpcOutcome) (narrative : NarrativeOutcome)
  : completion EstimationResult :=
  realData <- getOnChainData rpc ;;
  let derivedStats :=
    deriveStats (RealData.txCount realData) (RealData.balance realData) in
  let scores :=
    computeScores (RealData.txCount realData) (activeDays derivedStats)
      (protocols derivedStats) (volumeUSD derivedStats)
      (Some (recencyDays derivedStats)) in
  let estimatedRewards := mapScoreToRewards (finalScore scores) in
  let stats :=
    {| Stats.balance := toFixed 4 (RealData.balance realData);
       Stats.txCount := RealData.txCount realData;
       Stats.activeDays := activeDays derivedStats;
       Stats.volumeUSD := volumeUSD derivedStats;
       Stats.volumeMethod := volumeMethod derivedStats;
       Stats.protocols := protocols derivedStats |} in
  Returns
    (try_catch
       (aiText <- match narrative with
                  | GenerateContentRejects => Throws
                  | ResponseWithoutText => Returns empty_text_narrative
                  | ResponseText parsed => parsed
                  end ;;
        explanation <- get_property aiText "explanation" ;;
        suggestions <- get_property aiText "suggestions" ;;
        Returns {| activityScore := finalScore scores;
                   estimatedRewards := estimatedRewards;
                   stats := stats;
                   scoreBreakdown := scores;
                   explanation := explanation;
                   suggestions := suggestions |})
       {| activityScore := finalScore scores;
          estimatedRewards := estimatedRewards;
          stats := stats;
          scoreBreakdown := scores;
          explanation := catch_explanation;
          suggestions := catch_suggestions |}).

(** ** components/ScoreGauge.tsx *)

Module ScoreGauge.

(** The two slices of the half pie, [data]. *)
Definition data (score : R) : list (string * R) :=
  [ ("Score"%string, score); ("Remainder"%string, 1 - score) ].

Definition getColor (s : R) : string :=
  if Rlt_dec s 0.3 then "#EF4444"
  else if Rlt_dec s 0.7 then "#F59E0B"
  else "#2563EB".

Definition COLORS (score : R) : list string := [ getColor score; "#F3F4F6"%string ].

(** The fill of each [Cell]: [COLORS[index % COLORS.length]]. *)
Definition fills (score : R) : list string :=
  map (fun index =>
         nth (index mod length (COLORS score)) (COLORS score) EmptyString)
      (seq 0 (length (data score))).

(** The figure printed under the gauge, [Math.round(score * 100)], of the
    exact product. *)
Definition figure (score : R) : R := Math_round (score * 100).

End ScoreGauge.

(** ** components/ResultCard.tsx: a row of the score breakdown *)

Module BreakdownRow.

(** The width of the bar in per cent, and the figure beside it,
    [(score * 100).toFixed(0)], both of the exact product. *)
Definition width (score : R) : R := score * 100.
Definition figure (score : R) : string := toFixed 0 (score * 100).

End BreakdownRow.

(** ** App.tsx: the state of the page *)

Module App.

Inductive AppState := IDLE | LOADING | RESULT | ERROR.

Record t := {
  appState : AppState;
  walletInput : string;
  result : option EstimationResult
}.

Definition initial : t :=
  {| appState := IDLE; walletInput := EmptyString; result := None |}.

(** [String.prototype.trim] on a string of code units below 256: the white
    space and line terminators of that range are tab, line feed, vertical
    tab, form feed, carriage return, space and no-break space. *)
Definition is_white (c : Ascii.ascii) : bool :=
  let n := Ascii.nat_of_ascii c in
  ((Nat.leb 9 n && Nat.leb n 13) || Nat.eqb n 32 || Nat.eqb n 160)%bool.

Fixpoint trim_start (s : string) : string :=
  match s with
  | EmptyString => EmptyString
  | String c rest => if is_white c then trim_start rest else s
  end.

Fixpoint trim_end (s : string) : string :=
  match s with
  | EmptyString => EmptyString
  | String c rest =>
      match trim_end rest with
      | EmptyString => if is_white c then EmptyString else String c EmptyString
      | kept => String c kept
      end
  end.

Definition trim (s : string) : string := trim_end (trim_start s).

Definition handleInputChange (value : string) (st : t) : t :=
  {| appState := appState st; walletInput := value; result := result st |}.

(** [handleSubmit] up to its [await]: nothing on a blank input, else the
    page is loading and the request is out. *)
Definition submit_begin (st : t) : option t :=
  if String.eqb (trim (walletInput st)) EmptyString then None
  else Some {| appState := LOADING;
               walletInput := walletInput st;
               result := result st |}.

(** [handleSubmit] after its [await], on what [getRewardEstimate] did. *)
Definition submit_end (request : completion EstimationResult) (st : t) : t :=
  match request with
  | Returns data =>
      {| appState := RESULT; walletInput := walletInput st;
         result := Some data |}
  | Throws =>
      {| appState := ERROR; walletInput := walletInput st;
         result := result st |}
  end.

(** The states [handleSubmit] puts the page in, in order. *)
Definition handleSubmit (rpc : RpcOutcome) (narrative : NarrativeOutcome)
    (st : t) : list t :=
  match submit_begin st with
  | None => []
  | Some loading =>
      [ loading; submit_end (getRewardEstimate rpc narrative) loading ]
  end.

Definition handleReset (st : t) : t :=
  {| appState := IDLE; walletInput := EmptyString; result := None |}.

(** What can happen to the page: the form is there while idle, nothing but
    the spinner while loading, and the button that resets on the result
    card and on the error panel. *)
Inductive step : t -> t -> Prop :=
| step_input (st : t) (value : string) :
    appState st = IDLE -> step st (handleInputChange value st)
| step_submit (st loading : t) :
    appState st = IDLE -> submit_begin st = Some loading -> step st loading
| step_settle (st : t) (rpc : RpcOutcome) (narrative : NarrativeOutcome) :
    appState st = LOADING ->
    step st (submit_end (getRewardEstimate rpc narrative) st)
| step_reset (st : t) :
    appState st = RESULT \/ appState st = ERROR -> step st (handleReset st).

Inductive reachable : t -> Prop :=
| reachable_initial : reachable initial
| reachable_step (st st' : t) : reachable st -> step st st' -> reachable st'.

End App.

(** ** Vocabulary of the specification *)

(** The interpolation step in the words of the specification. *)
Definition interpolate (p1 p2 : MappingPoint) (s : R) : R :=
  let t := (s - score p1) / (score p2 - score p1) in
  pct p1 + t * (pct p2 - pct p1).

Definition brackets (i : nat) (s : R) : Prop :=
  score (point_at i) <= s <= score (point_at (i + 1)).

(** Pair [i] is the first consecutive pair of control points around [s]. *)
Definition first_pair (i : nat) (s : R) : Prop :=
  (i + 1 < length MAPPING_POINTS)%nat /\
  brackets i s /\
  forall j, (j < i)%nat -> ~ brackets j s.

(** The active-days rule in the words of the specification. *)
Definition spec_activeDays (txCount : Z) : R :=
  if (txCount =? 0)%Z then 0
  else Math_round (560 * (1 - exp (- (IZR txCount * 0.0012)))).

(** The volume rules in the words of the specification. *)
Definition Rltb (x y : R) : bool := if Rlt_dec x y then true else false.

Definition spec_baseOpValue (txCount : R) : R :=
  if Rltb txCount 50 then 15 else 41.5.

Definition spec_wealthMultiplier (balance : R) : R :=
  if Rltb 5.0 balance then 12
  else if Rltb 0.5 balance then 2.5
  else 1.

(** The tiers in the order the rules test them, each with its test. *)
Definition spec_tiers (txCount balance : R) : list (bool * string) :=
  [ (Rltb txCount 50, "Casual (~$15/op)"%string);
    (negb (Rltb txCount 50), "Regular (~$42/tx)"%string);
    (Rltb 0.5 balance, "Active (~$100/tx)"%string);
    (Rltb 5.0 balance, "Whale (~$500/tx)"%string) ].

Definition last_matched (tiers : list (bool * string)) : string :=
  last (map snd (filter fst tiers)) EmptyString.

(** Rounding to [d] decimal places, halves upwards. *)
Definition round_dp (d : nat) (x : R) : R := Math_round (x * 10 ^ d) / 10 ^ d.

(** [r] is a number of [d] decimals nearest to [x]. *)
Definition nearest_dp (d : nat) (x r : R) : Prop :=
  (exists n : Z, r = IZR n / 10 ^ d) /\ Rabs (r - x) <= / (2 * 10 ^ d).

(** The room left for the binary64 evaluation of a formula whose value is
    at most the size of the pool share, far above the error of the few
    operations involved. *)
Definition binary64_slack : R := / 10 ^ 9.

(** [r] is [x] rounded to [d] decimals: a number of [d] decimals that is
    nearest to [x], up to the slack. *)
Definition rounded_dp (d : nat) (x r : R) : Prop :=
  (exists n : Z, r = IZR n / 10 ^ d) /\
  Rabs (r - x) <= / (2 * 10 ^ d) + binary64_slack.

(** [r] is [x] rounded to an integer, in the same sense.  Away from the
    ties this leaves one value, see [rounded_int_away_from_tie]. *)
Definition rounded_int (x r : R) : Prop :=
  (exists n : Z, r = IZR n) /\ Rabs (r - x) <= / 2 + binary64_slack.

(** The formulas of the specification. *)
Module Spec.
Definition txScore (txCount : R) : R := Rmin (Rlog 10 (txCount + 1) / 3) 1.
Definition activeDaysScore (activeDays : R) : R := Rmin (activeDays / 365) 1.
Definition protocolScore (protocols : R) : R := Rmin (protocols / 8) 1.
Definition volumeScore (volumeUSD : R) : R :=
  Rmin (Rlog 10 (volumeUSD + 1) / 5.8) 1.
Definition recencyScore (recencyDays : R) : R :=
  if Rle_dec recencyDays 7 then 1
  else Rmax 0 (1 - (recencyDays - 7) / 83).
Definition weighted (tx ad pr vol rec : R) : R :=
  0.35 * tx + 0.25 * ad + 0.20 * pr + 0.15 * vol + 0.05 * rec.
End Spec.

(** The weighted sum taken over the fields of a returned breakdown. *)
Definition weighted_fields (sb : ScoreBreakdown) : R :=
  Spec.weighted (txScore sb) (activeDaysScore sb) (protocolScore sb)
    (volumeScore sb) (recencyScore sb).

(** What [getRewardEstimate] has computed when it turns to the narrative. *)
Definition numeric_results (r : EstimationResult)
  : R * R * Stats.t * ScoreBreakdown :=
  (activityScore r, estimatedRewards r, stats r, scoreBreakdown r).

(** The steps between the fetch and the narrative: derive the statistics,
    compute the scores, map the final score to a reward. *)
Definition pipeline (realData : RealData.t)
  : R * R * Stats.t * ScoreBreakdown :=
  let derivedStats :=
    deriveStats (RealData.txCount realData) (RealData.balance realData) in
  let scores :=
    computeScores (RealData.txCount realData) (activeDays derivedStats)
      (protocols derivedStats) (volumeUSD derivedStats)
      (Some (recencyDays derivedStats)) in
  (finalScore scores,
   mapScoreToRewards (finalScore scores),
   {| Stats.balance := toFixed 4 (RealData.balance realData);
      Stats.txCount := RealData.txCount realData;
      Stats.activeDays := activeDays derivedStats;
      Stats.volumeUSD := volumeUSD derivedStats;
      Stats.volumeMethod := volumeMethod derivedStats;
      Stats.protocols := protocols derivedStats |},
   scores).

(** The score and the reward among the results of the pipeline. *)
Definition score_of (x : R * R * Stats.t * ScoreBreakdown) : R :=
  fst (fst (fst x)).

Definition reward_of (x : R * R * Stats.t * ScoreBreakdown) : R :=
  snd (fst (fst x)).

(** The data [getOnChainData] hands on; it has caught what was thrown. *)
Definition fetched (rpc : RpcOutcome) : RealData.t :=
  match getOnChainData rpc with
  | Returns d => d
  | Throws => {| RealData.balance := 0; RealData.txCount := 0;
                 RealData.error := None |}
  end.

(** The narrative of a result is a text and three suggestion texts. *)
Definition complete_narrative (r : EstimationResult) : Prop :=
  (exists e, explanation r = JsString e) /\
  (exists a b c, suggestions r = JsArray [JsString a; JsString b; JsString c]).

(** The two narrative fields as [getRewardEstimate] reads them off a parsed
    response that is neither [null] nor [undefined]. *)
Definition narrative_read (key : string) (v : JsValue) : JsValue :=
  match v with
  | JsObject fields => own_property key fields
  | _ => JsUndefined
  end.

(** * Properties *)

(** ** Evaluation helpers *)

Lemma Math_round_eq (z : Z) (x : R) :
  IZR z - / 2 <= x < IZR z + / 2 -> Math_round x = IZR z.
Proof.
  intros H. unfold Math_round. f_equal. apply Zfloor_eq. lra.
Qed.

Lemma Math_round_le (x y : R) : x <= y -> Math_round x <= Math_round y.
Proof.
  intros H. unfold Math_round. apply IZR_le, Zfloor_le. lra.
Qed.

Lemma binary64_slack_pos : 0 < binary64_slack.
Proof. unfold binary64_slack. apply Rinv_0_lt_compat. lra. Qed.

Lemma Math_round_rounded (x : R) : rounded_int x (Math_round x).
Proof.
  split; [unfold Math_round; eauto|].
  pose proof binary64_slack_pos.
  pose proof (Zfloor_bound (x + / 2)).
  unfold Math_round. apply Rabs_le. lra.
Qed.

(** A rounding up to the slack is the rounding, unless the value is within
    the slack of a tie. *)
Lemma rounded_int_away_from_tie (x r : R) :
  rounded_int x r ->
  (forall k : Z, binary64_slack < Rabs (x - (IZR k + / 2))) ->
  r = Math_round x.
Proof.
  intros [[n ->] Hnear] Hties. unfold Math_round. f_equal.
  set (m := Zfloor (x + / 2)).
  pose proof (Zfloor_bound (x + / 2)) as [Hlo Hhi]. fold m in Hlo, Hhi.
  assert (Hn12 : - (/ 2 + binary64_slack) <= IZR n - x <= / 2 + binary64_slack)
    by (unfold Rabs in Hnear; destruct (Rcase_abs (IZR n - x)); lra).
  destruct Hn12 as [Hn1 Hn2].
  destruct (Z.lt_trichotomy n m) as [Hlt|[Heq|Hgt]]; [|exact Heq|]; exfalso.
  - assert (Hn : IZR n <= IZR m - 1).
    { rewrite <- (minus_IZR m 1). apply IZR_le. lia. }
    assert (Hnm : n = (m - 1)%Z).
    { assert (IZR m - 2 < IZR n) by (pose proof binary64_slack_pos;
        unfold binary64_slack in *; lra).
      rewrite <- (minus_IZR m 2) in H. apply lt_IZR in H. lia. }
    specialize (Hties (m - 1)%Z). rewrite minus_IZR in Hties.
    apply Rlt_not_le in Hties. apply Hties. apply Rabs_le.
    subst n. rewrite minus_IZR in *. lra.
  - assert (Hn : IZR m + 1 <= IZR n).
    { rewrite <- (plus_IZR m 1). apply IZR_le. lia. }
    specialize (Hties m).
    apply Rlt_not_le in Hties. apply Hties. apply Rabs_le. lra.
Qed.

Ltac js_cases :=
  repeat match goal with
         | |- context [Rle_dec ?a ?b] => destruct (Rle_dec a b); try lra
         | |- context [Rge_dec ?a ?b] => destruct (Rge_dec a b); try lra
         | |- context [Rlt_dec ?a ?b] => destruct (Rlt_dec a b); try lra
         | |- context [Rgt_dec ?a ?b] => destruct (Rgt_dec a b); try lra
         end.

(** ** The reward mapper *)

Ltac unfold_points :=
  unfold brackets, interpolate, point_at, POOL_SIZE in *;
  cbn [nth MAPPING_POINTS score pct Nat.add length Nat.sub] in *.

Lemma mapScoreToRewards_first_pair (i : nat) (s : R) :
  0 < s -> first_pair i s ->
  mapScoreToRewards s =
    Math_round (POOL_SIZE * interpolate (point_at i) (point_at (i + 1)) s).
Proof.
  intros Hs (Hi & Hb & Hfirst).
  assert (H0 := Hfirst 0%nat). assert (H1 := Hfirst 1%nat).
  assert (H2 := Hfirst 2%nat).
  cbn [length MAPPING_POINTS] in Hi.
  unfold mapScoreToRewards.
  cbn [length MAPPING_POINTS Nat.sub mapping_loop].
  destruct i as [|[|[|[|i]]]]; try lia; unfold_points;
    js_cases; try reflexivity;
    try (exfalso; first [apply H0; [lia|lra] | apply H1; [lia|lra]
                        | apply H2; [lia|lra]]).
Qed.

Ltac first_pair_at :=
  unfold first_pair; split; [cbn; lia|];
  split; [unfold_points; lra|];
  let j := fresh "j" in
  let Hj := fresh "Hj" in
  intros j Hj; destruct j as [|[|[|j]]]; try lia; unfold_points; lra.

Lemma first_pair_exists (s : R) : 0 < s <= 1 -> exists i, first_pair i s.
Proof.
  intros Hs.
  destruct (Rle_dec s 0.25); [exists 0%nat; first_pair_at|].
  destruct (Rle_dec s 0.5); [exists 1%nat; first_pair_at|].
  destruct (Rle_dec s 0.75); [exists 2%nat; first_pair_at|].
  exists 3%nat; first_pair_at.
Qed.

Lemma mapScoreToRewards_above (s : R) :
  1 < s -> mapScoreToRewards s = 12000.
Proof.
  intros Hs. unfold mapScoreToRewards.
  cbn [length MAPPING_POINTS Nat.sub mapping_loop]. unfold_points.
  js_cases. apply (Math_round_eq 12000). lra.
Qed.

(** C2.  [mapScoreToRewards] returns 0 for a score that is not positive;
    for a positive score it interpolates linearly on the first pair of
    consecutive control points around the score, which exists up to the
    last control point, and returns the share of the pool rounded to an
    integer; above the last control point it returns the share of the last
    control point, 12000.  At 0, 0.5 and 1 it returns 0, 1500 and 12000. *)
Theorem mapScoreToRewards_contract :
  (forall s, s <= 0 -> mapScoreToRewards s = 0) /\
  (forall s i, 0 < s -> first_pair i s ->
     rounded_int
       (POOL_SIZE * interpolate (point_at i) (point_at (i + 1)) s)
       (mapScoreToRewards s)) /\
  (forall s, 0 < s <= 1 -> exists i, first_pair i s) /\
  (forall s, score (point_at 4) < s ->
     mapScoreToRewards s = Math_round (POOL_SIZE * pct (point_at 4))) /\
  Math_round (1000000000 * 0.0000120) = 12000 /\
  mapScoreToRewards 0 = 0 /\
  mapScoreToRewards 0.5 = 1500 /\
  mapScoreToRewards 1.0 = 12000.
Proof.
  assert (Hzero : forall s, s <= 0 -> mapScoreToRewards s = 0).
  { intros s Hs. unfold mapScoreToRewards. js_cases. }
  assert (Hmax : Math_round (1000000000 * 0.0000120) = 12000).
  { apply (Math_round_eq 12000). lra. }
  refine (conj _ (conj _ (conj _ (conj _ (conj _ (conj _ (conj _ _))))))).
  - exact Hzero.
  - intros s i Hs Hp. rewrite (mapScoreToRewards_first_pair i s Hs Hp).
    apply Math_round_rounded.
  - exact first_pair_exists.
  - intros s Hs. unfold_points. rewrite mapScoreToRewards_above by lra.
    symmetry. apply (Math_round_eq 12000). lra.
  - exact Hmax.
  - apply Hzero. lra.
  - rewrite (mapScoreToRewards_first_pair 1).
    + unfold_points. apply (Math_round_eq 1500). lra.
    + lra.
    + first_pair_at.
  - rewrite (mapScoreToRewards_first_pair 3).
    + unfold_points. apply (Math_round_eq 12000). lra.
    + lra.
    + first_pair_at.
Qed.

Lemma mapScoreToRewards_contract_witness :
  mapScoreToRewards (-1) = 0 /\
  rounded_int (POOL_SIZE * interpolate (point_at 2) (point_at 3) 0.6)
    (mapScoreToRewards 0.6) /\
  mapScoreToRewards 2 = Math_round (POOL_SIZE * pct (point_at 4)).
Proof.
  destruct mapScoreToRewards_contract as (Hzero & Hpair & _ & Habove & _).
  split; [apply Hzero; lra|].
  split.
  - apply (Hpair 0.6 2%nat).
    + lra.
    + first_pair_at.
  - apply Habove. unfold_points. lra.
Defined.

Lemma Math_round_nonneg (x : R) :
  0 <= x -> exists n : Z, (0 <= n)%Z /\ Math_round x = IZR n.
Proof.
  intros Hx. exists (Zfloor (x + / 2)). split; [|reflexivity].
  apply Zfloor_lub. simpl. lra.
Qed.

Lemma mapScoreToRewards_integer (s : R) :
  exists n : Z, (0 <= n)%Z /\ mapScoreToRewards s = IZR n.
Proof.
  unfold mapScoreToRewards.
  cbn [length MAPPING_POINTS Nat.sub mapping_loop]. unfold_points.
  js_cases; try (exists 0%Z; split; [lia|reflexivity]);
    apply Math_round_nonneg; lra.
Qed.

Lemma mapScoreToRewards_nonneg (s : R) : 0 <= mapScoreToRewards s.
Proof.
  destruct (mapScoreToRewards_integer s) as (n & Hn & ->).
  now apply IZR_le.
Qed.

Lemma mapScoreToRewards_le (s1 s2 : R) :
  s1 <= s2 -> mapScoreToRewards s1 <= mapScoreToRewards s2.
Proof.
  intros Hle.
  destruct (Rle_dec s1 0) as [H1|H1].
  { replace (mapScoreToRewards s1) with 0.
    - apply mapScoreToRewards_nonneg.
    - unfold mapScoreToRewards. js_cases. }
  unfold mapScoreToRewards.
  cbn [length MAPPING_POINTS Nat.sub mapping_loop]. unfold_points.
  js_cases; apply Math_round_le; lra.
Qed.

(** C3.  [mapScoreToRewards] is non-decreasing on [0,1], and its result is
    a non-negative integer for every score. *)
Theorem mapScoreToRewards_monotone :
  (forall s1 s2, 0 <= s1 -> s1 < s2 -> s2 <= 1 ->
     mapScoreToRewards s1 <= mapScoreToRewards s2) /\
  (forall s, exists n : Z, (0 <= n)%Z /\ mapScoreToRewards s = IZR n).
Proof.
  split.
  - intros s1 s2 _ Hlt _. apply mapScoreToRewards_le. lra.
  - exact mapScoreToRewards_integer.
Qed.

Lemma mapScoreToRewards_monotone_witness :
  mapScoreToRewards 0.25 <= mapScoreToRewards 0.75.
Proof.
  apply (proj1 mapScoreToRewards_monotone); lra.
Defined.

(** ** Bounds on the exponential *)

Lemma exp_neg_upper (y : R) : 0 <= y -> exp (- y) <= / (1 + y).
Proof.
  intros Hy. rewrite exp_Ropp.
  apply Rinv_le_contravar; [lra|apply exp_ineq1_le].
Qed.

Lemma exp_neg_le_1 (y : R) : 0 <= y -> exp (- y) <= 1.
Proof.
  intros Hy. rewrite <- exp_0.
  destruct (Req_dec y 0) as [->|Hne].
  - rewrite Ropp_0. lra.
  - left. apply exp_increasing. lra.
Qed.

Lemma exp_halving_lower (x c c' : R) :
  0 <= c -> c <= exp (x / 2) -> c' <= c * c -> c' <= exp x.
Proof.
  intros Hc Hle Hc'.
  replace x with (x / 2 + x / 2) by lra. rewrite exp_plus.
  pose proof (exp_pos (x / 2)). nra.
Qed.

Lemma exp_halving_upper (x c c' : R) :
  exp (x / 2) <= c -> c * c <= c' -> exp x <= c'.
Proof.
  intros Hle Hc'.
  replace x with (x / 2 + x / 2) by lra. rewrite exp_plus.
  pose proof (exp_pos (x / 2)). nra.
Qed.

(** [exp (-1.44)] lies between 0.2366 and 0.2372: ten halvings of the
    exponent, the elementary bounds [1 + x <= exp x] at the bottom, and ten
    squarings back up, each rounded outwards at the twelfth decimal. *)
Lemma exp_144_lower : 0.236687765757 <= exp (- 1.44).
Proof.
  apply (exp_halving_lower _ 0.486505668783); [lra| |lra].
  apply (exp_halving_lower _ 0.697499583357); [lra| |lra].
  apply (exp_halving_lower _ 0.835164404987); [lra| |lra].
  apply (exp_halving_lower _ 0.913873298104); [lra| |lra].
  apply (exp_halving_lower _ 0.955967205559); [lra| |lra].
  apply (exp_halving_lower _ 0.977735754465); [lra| |lra].
  apply (exp_halving_lower _ 0.988805215634); [lra| |lra].
  apply (exp_halving_lower _ 0.994386854114); [lra| |lra].
  apply (exp_halving_lower _ 0.997189477539); [lra| |lra].
  apply (exp_halving_lower _ 0.998593750000); [lra| |lra].
  pose proof (exp_ineq1_le (- 1.44 / 2 / 2 / 2 / 2 / 2 / 2 / 2 / 2 / 2 / 2)).
  lra.
Qed.

Lemma exp_144_upper : exp (- 1.44) <= 0.237167544907.
Proof.
  apply (exp_halving_upper _ 0.486998506062); [|lra].
  apply (exp_halving_upper _ 0.697852782513); [|lra].
  apply (exp_halving_upper _ 0.835375833091); [|lra].
  apply (exp_halving_upper _ 0.913988967707); [|lra].
  apply (exp_halving_upper _ 0.956027702374); [|lra].
  apply (exp_halving_upper _ 0.977766691176); [|lra].
  apply (exp_halving_upper _ 0.988820858991); [|lra].
  apply (exp_halving_upper _ 0.994394719913); [|lra].
  apply (exp_halving_upper _ 0.997193421515); [|lra].
  apply (exp_halving_upper _ 0.998595724763); [|lra].
  replace (- 1.44 / 2 / 2 / 2 / 2 / 2 / 2 / 2 / 2 / 2 / 2)
    with (- (1.44 / 1024)) by lra.
  eapply Rle_trans; [apply exp_neg_upper; lra|].
  apply Rmult_le_reg_l with (1 + 1.44 / 1024); [lra|].
  rewrite Rinv_r by lra. lra.
Qed.

(** ** The statistics deriver *)

Ltac js_eq_cases :=
  repeat match goal with
         | |- context [Req_dec_T ?a ?b] =>
             destruct (Req_dec_T a b); try lra; try contradiction
         end.

Lemma Math_round_0 : Math_round 0 = 0.
Proof. apply (Math_round_eq 0). lra. Qed.

Lemma estimatedActiveDays_bounds (t : R) :
  0 <= estimatedActiveDays t <= MAX_BASE_DAYS.
Proof.
  unfold estimatedActiveDays, MAX_BASE_DAYS, SATURATION_K, Math_exp.
  destruct (Rgt_dec t 0) as [Ht|Ht]; [|lra].
  replace (- t * 0.0012) with (- (t * 0.0012)) by lra.
  pose proof (exp_neg_le_1 (t * 0.0012)) as Hle.
  pose proof (exp_pos (- (t * 0.0012))) as Hpos.
  split.
  - rewrite <- Math_round_0. apply Math_round_le. nra.
  - replace 560 with (Math_round 560) at 2
      by (apply (Math_round_eq 560); lra).
    apply Math_round_le. nra.
Qed.

Lemma estimatedActiveDays_le (t1 t2 : R) :
  t1 <= t2 -> estimatedActiveDays t1 <= estimatedActiveDays t2.
Proof.
  intros Hle.
  unfold estimatedActiveDays at 1.
  destruct (Rgt_dec t1 0) as [H1|H1];
    [|apply estimatedActiveDays_bounds].
  unfold estimatedActiveDays.
  destruct (Rgt_dec t2 0) as [H2|H2]; [|lra].
  apply Math_round_le.
  unfold MAX_BASE_DAYS, SATURATION_K, Math_exp.
  assert (exp (- t2 * 0.0012) <= exp (- t1 * 0.0012)).
  { destruct (Req_dec t1 t2) as [->|Hne]; [lra|].
    left. apply exp_increasing. lra. }
  lra.
Qed.

(** C6.  [deriveStats] takes [activeDays] to be 0 for no transaction and
    [round (560 * (1 - e^(-txCount * 0.0012)))] otherwise; it does not
    decrease when the transaction count grows, and it lies in [0, 560]. *)
Theorem deriveStats_activeDays (t1 t2 : Z) (b1 b2 : R) :
  (0 <= t1)%Z -> (t1 <= t2)%Z ->
  activeDays (deriveStats (IZR t1) b1) = spec_activeDays t1 /\
  activeDays (deriveStats (IZR t1) b1) <= activeDays (deriveStats (IZR t2) b2) /\
  0 <= activeDays (deriveStats (IZR t1) b1) <= 560.
Proof.
  intros H1 H12.
  assert (Hfield : forall t b,
             activeDays (deriveStats t b) = estimatedActiveDays t).
  { intros t b. unfold deriveStats.
    destruct (base_tier t) as [v l]. destruct (wealth_tier b l).
    reflexivity. }
  rewrite !Hfield. repeat split.
  - unfold spec_activeDays, estimatedActiveDays.
    destruct (Z.eqb_spec t1 0) as [->|Hne].
    + js_cases.
    + assert (0 < IZR t1) by (apply IZR_lt; lia).
      js_cases. unfold MAX_BASE_DAYS, SATURATION_K, Math_exp.
      now replace (- IZR t1 * 0.0012) with (- (IZR t1 * 0.0012)) by lra.
  - apply estimatedActiveDays_le. now apply IZR_le.
  - apply estimatedActiveDays_bounds.
  - apply (estimatedActiveDays_bounds (IZR t1)).
Qed.

Lemma deriveStats_activeDays_witness :
  activeDays (deriveStats 50 0) = spec_activeDays 50 /\
  activeDays (deriveStats 50 0) <= activeDays (deriveStats 1000 6) /\
  0 <= activeDays (deriveStats 50 0) <= 560.
Proof.
  apply (deriveStats_activeDays 50 1000 0 6); lia.
Defined.

Ltac unfold_volume :=
  unfold deriveStats, base_tier, wealth_tier, spec_baseOpValue,
    spec_wealthMultiplier, last_matched, spec_tiers, Rltb.

(** C5.  [volumeUSD] is [round (txCount * baseOpValue * wealthMultiplier)]
    on the raw transaction count, with [baseOpValue] 15 below 50
    transactions and 41.5 from 50 on, [wealthMultiplier] 1, 2.5 above a
    balance of 0.5 and 12 above 5.0, and [volumeMethod] the label of the last
    tier that matched.  [deriveStats(1000, 6.0)] is a whale with a volume of
    498000, and without transactions the volume is 0. *)
Theorem deriveStats_volume :
  (forall txCount balance : R,
     volumeUSD (deriveStats txCount balance) =
       Math_round (txCount * spec_baseOpValue txCount
                   * spec_wealthMultiplier balance) /\
     volumeMethod (deriveStats txCount balance) =
       last_matched (spec_tiers txCount balance)) /\
  volumeMethod (deriveStats 1000 6.0) = "Whale (~$500/tx)"%string /\
  volumeUSD (deriveStats 1000 6.0) = 498000 /\
  (forall b : R, volumeUSD (deriveStats 0 b) = 0).
Proof.
  repeat split.
  - unfold_volume. js_cases; reflexivity.
  - unfold_volume. js_cases; reflexivity.
  - unfold_volume. js_cases; reflexivity.
  - unfold_volume. js_cases; cbn [volumeUSD].
    apply (Math_round_eq 498000). lra.
  - intros b. unfold_volume.
    js_cases; cbn [volumeUSD]; apply (Math_round_eq 0); lra.
Qed.

(** C7.  At 1200 transactions and a balance of 0.2 [deriveStats] estimates 427
    active days (the curve is at 427.3 there) and a volume of 49800. *)
Theorem deriveStats_tuning_scenario :
  activeDays (deriveStats 1200 0.2) = 427 /\
  volumeUSD (deriveStats 1200 0.2) = 49800.
Proof.
  split.
  - unfold_volume. js_cases; cbn [activeDays].
    unfold estimatedActiveDays, MAX_BASE_DAYS, SATURATION_K, Math_exp.
    js_cases.
    match goal with
    | |- context [exp ?a] => replace a with (- 1.44) by lra
    end.
    pose proof exp_144_lower. pose proof exp_144_upper.
    apply (Math_round_eq 427). lra.
  - unfold_volume. js_cases; cbn [volumeUSD].
    apply (Math_round_eq 49800). lra.
Qed.

Lemma meaningfulTxCount_1 : meaningfulTxCount 1 = 0.
Proof.
  unfold meaningfulTxCount, Math_floor. f_equal.
  apply Zfloor_eq. simpl. lra.
Qed.

Lemma raw_recencyScore_nonneg (d : R) : 0 <= raw_recencyScore d.
Proof.
  unfold raw_recencyScore, Math_max.
  destruct (Rle_dec d 7); [lra|apply Rmax_l].
Qed.

Lemma raw_recencyScore_90 : raw_recencyScore 90 = 0.
Proof.
  unfold raw_recencyScore, Math_max. js_cases.
  rewrite Rmax_left; lra.
Qed.

(** C10.  One transaction is no meaningful transaction: [floor (1 * 0.8)]
    is 0, so [deriveStats] returns no protocol and a recency of 90 days,
    the value with the lowest recency score, although it counts one active
    day. *)
Theorem deriveStats_single_tx (balance : R) :
  meaningfulTxCount 1 = 0 /\
  protocols (deriveStats 1 balance) = 0 /\
  recencyDays (deriveStats 1 balance) = 90 /\
  activeDays (deriveStats 1 balance) = 1 /\
  raw_recencyScore 90 = 0 /\
  (forall d, raw_recencyScore 90 <= raw_recencyScore d).
Proof.
  assert (Hshape : forall b,
             protocols (deriveStats 1 b) = estimatedProtocols (meaningfulTxCount 1)
             /\ recencyDays (deriveStats 1 b)
                = estimatedRecencyDays (meaningfulTxCount 1)
             /\ activeDays (deriveStats 1 b) = estimatedActiveDays 1).
  { intros b. unfold deriveStats.
    destruct (base_tier 1) as [v l]. destruct (wealth_tier b l).
    repeat split. }
  destruct (Hshape balance) as (-> & -> & ->).
  split; [exact meaningfulTxCount_1|].
  rewrite meaningfulTxCount_1.
  repeat split.
  - unfold estimatedProtocols. js_eq_cases.
  - unfold estimatedRecencyDays. js_eq_cases.
  - unfold estimatedActiveDays, MAX_BASE_DAYS, SATURATION_K, Math_exp.
    js_cases.
    match goal with
    | |- context [exp ?a] => replace a with (Ropp 0.0012) by lra
    end.
    pose proof (exp_ineq1_le (Ropp 0.0012)).
    pose proof (exp_neg_upper 0.0012 ltac:(lra)) as Hup.
    assert (/ (1 + 0.0012) <= 0.9989).
    { apply Rmult_le_reg_l with (1 + 0.0012); [lra|].
      rewrite Rinv_r by lra. lra. }
    apply (Math_round_eq 1). lra.
  - exact raw_recencyScore_90.
  - intros d. rewrite raw_recencyScore_90. apply raw_recencyScore_nonneg.
Qed.

(** ** The score calculator *)

Lemma round_dp_nearest (d : nat) (x : R) : nearest_dp d x (round_dp d x).
Proof.
  unfold nearest_dp, round_dp, Math_round. split; [eauto|].
  assert (Hp : 0 < 10 ^ d) by (apply pow_lt; lra).
  pose proof (Zfloor_bound (x * 10 ^ d + / 2)) as [Hlo Hhi].
  set (n := IZR (Zfloor (x * 10 ^ d + / 2))) in *.
  replace (n / 10 ^ d - x) with ((n - x * 10 ^ d) / 10 ^ d) by (field; lra).
  unfold Rdiv. rewrite Rabs_mult, (Rabs_right (/ 10 ^ d)).
  - rewrite Rinv_mult.
    apply Rmult_le_compat_r; [left; now apply Rinv_0_lt_compat|].
    apply Rabs_le. lra.
  - left. now apply Rinv_0_lt_compat.
Qed.

Lemma toFixed_num_round_dp (d : nat) (x : R) :
  0 <= x <= 1 -> toFixed_num d x = round_dp d x.
Proof.
  intros Hx. unfold toFixed_num, round_dp, Math_round, fixed_digits.
  rewrite (Rabs_right x) by lra.
  js_cases.
Qed.

Lemma round_dp_unit (d : nat) (x : R) :
  0 <= x <= 1 -> 0 <= round_dp d x <= 1.
Proof.
  intros Hx. unfold round_dp.
  assert (Hp : 0 < 10 ^ d) by (apply pow_lt; lra).
  assert (H0 : Math_round 0 <= Math_round (x * 10 ^ d))
    by (apply Math_round_le; nra).
  assert (H1 : Math_round (x * 10 ^ d) <= Math_round (10 ^ d))
    by (apply Math_round_le; nra).
  rewrite Math_round_0 in H0.
  replace (Math_round (10 ^ d)) with (10 ^ d) in H1.
  - split.
    + apply Rmult_le_pos; [lra|left; now apply Rinv_0_lt_compat].
    + apply Rmult_le_reg_r with (10 ^ d); [lra|].
      unfold Rdiv. rewrite Rmult_assoc, Rinv_l by lra. lra.
  - symmetry. rewrite (pow_IZR 10 d). apply Math_round_eq. lra.
Qed.

Lemma round_dp_close (d : nat) (x : R) :
  - / (2 * 10 ^ d) <= round_dp d x - x <= / (2 * 10 ^ d).
Proof.
  destruct (round_dp_nearest d x) as [_ H].
  unfold Rabs in H. destruct (Rcase_abs (round_dp d x - x)); lra.
Qed.

Lemma round_dp_eq (d : nat) (z : Z) (x : R) :
  IZR z - / 2 <= x * 10 ^ d < IZR z + / 2 -> round_dp d x = IZR z / 10 ^ d.
Proof.
  intros H. unfold round_dp. now rewrite (Math_round_eq z).
Qed.

Lemma Math_log10_nonneg (x : R) : 1 <= x -> 0 <= Math_log10 x.
Proof.
  intros Hx. unfold Math_log10.
  assert (0 < ln 10) by (rewrite <- ln_1; apply ln_increasing; lra).
  assert (0 <= ln x).
  { destruct (Req_dec x 1) as [->|Hne]; [rewrite ln_1; lra|].
    left. rewrite <- ln_1. apply ln_increasing; lra. }
  apply Rmult_le_pos; [lra|left; now apply Rinv_0_lt_compat].
Qed.

Lemma Math_log10_1 : Math_log10 (0 + 1) = 0.
Proof.
  unfold Math_log10. replace (0 + 1) with 1 by lra. rewrite ln_1. lra.
Qed.

Lemma Math_min_unit (x : R) : 0 <= x -> 0 <= Math_min x 1 <= 1.
Proof.
  intros Hx. unfold Math_min. split.
  - apply Rmin_glb; lra.
  - apply Rmin_r.
Qed.

Lemma raw_recencyScore_unit (d : R) : 0 <= raw_recencyScore d <= 1.
Proof.
  split; [apply raw_recencyScore_nonneg|].
  unfold raw_recencyScore, Math_max.
  destruct (Rle_dec d 7); [lra|]. apply Rmax_lub; lra.
Qed.

Lemma raw_finalScore_weighted (tx ad pr vol rec : R) :
  raw_finalScore tx ad pr vol rec = Spec.weighted tx ad pr vol rec.
Proof. unfold raw_finalScore, Spec.weighted. lra. Qed.

Create HintDb unit_scores.

(** What [computeScores] does on the inputs it is written for. *)
Section NonNegativeInputs.

Variables txCount activeDays protocols volumeUSD recencyDays : R.
Hypothesis txCount_nonneg : 0 <= txCount.
Hypothesis activeDays_nonneg : 0 <= activeDays.
Hypothesis protocols_nonneg : 0 <= protocols.
Hypothesis volumeUSD_nonneg : 0 <= volumeUSD.

Lemma raw_txScore_unit : 0 <= raw_txScore txCount <= 1.
Proof.
  apply Math_min_unit.
  pose proof (Math_log10_nonneg (txCount + 1) ltac:(lra)). lra.
Qed.

Lemma raw_activeDaysScore_unit : 0 <= raw_activeDaysScore activeDays <= 1.
Proof. apply Math_min_unit. lra. Qed.

Lemma raw_protocolScore_unit : 0 <= raw_protocolScore protocols <= 1.
Proof. apply Math_min_unit. lra. Qed.

Lemma raw_volumeScore_unit : 0 <= raw_volumeScore volumeUSD <= 1.
Proof.
  apply Math_min_unit.
  pose proof (Math_log10_nonneg (volumeUSD + 1) ltac:(lra)). lra.
Qed.

Lemma raw_finalScore_unit :
  0 <= raw_finalScore (raw_txScore txCount) (raw_activeDaysScore activeDays)
         (raw_protocolScore protocols) (raw_volumeScore volumeUSD)
         (raw_recencyScore recencyDays) <= 1.
Proof.
  pose proof raw_txScore_unit. pose proof raw_activeDaysScore_unit.
  pose proof raw_protocolScore_unit. pose proof raw_volumeScore_unit.
  pose proof (raw_recencyScore_unit recencyDays).
  unfold raw_finalScore. lra.
Qed.

Hint Resolve raw_txScore_unit raw_activeDaysScore_unit raw_protocolScore_unit
  raw_volumeScore_unit raw_recencyScore_unit raw_finalScore_unit
  : unit_scores.

(** Every [parseFloat(x.toFixed(f))] of [computeScores] is a rounding. *)
Lemma computeScores_rounded :
  computeScores txCount activeDays protocols volumeUSD (Some recencyDays) =
    {| txScore := round_dp 2 (raw_txScore txCount);
       activeDaysScore := round_dp 2 (raw_activeDaysScore activeDays);
       protocolScore := round_dp 2 (raw_protocolScore protocols);
       volumeScore := round_dp 2 (raw_volumeScore volumeUSD);
       recencyScore := round_dp 2 (raw_recencyScore recencyDays);
       finalScore :=
         round_dp 3
           (Spec.weighted (raw_txScore txCount)
              (raw_activeDaysScore activeDays) (raw_protocolScore protocols)
              (raw_volumeScore volumeUSD) (raw_recencyScore recencyDays)) |}.
Proof.
  unfold computeScores.
  rewrite !toFixed_num_round_dp by auto with unit_scores.
  now rewrite raw_finalScore_weighted.
Qed.

End NonNegativeInputs.

Lemma raw_txScore_0 : raw_txScore 0 = 0.
Proof.
  unfold raw_txScore, Math_min. rewrite Math_log10_1, Rmin_left; lra.
Qed.

Lemma raw_protocolScore_0 : raw_protocolScore 0 = 0.
Proof. unfold raw_protocolScore, Math_min. rewrite Rmin_left; lra. Qed.

Lemma raw_volumeScore_0 : raw_volumeScore 0 = 0.
Proof.
  unfold raw_volumeScore, Math_min. rewrite Math_log10_1, Rmin_left; lra.
Qed.

Lemma raw_activeDaysScore_small (a : R) :
  a <= 365 -> raw_activeDaysScore a = a / 365.
Proof.
  intros Ha. unfold raw_activeDaysScore, Math_min. rewrite Rmin_left; lra.
Qed.

Lemma computeScores_zero :
  computeScores 0 0 0 0 (Some 90) =
    {| txScore := 0; activeDaysScore := 0; protocolScore := 0;
       volumeScore := 0; recencyScore := 0; finalScore := 0 |}.
Proof.
  rewrite computeScores_rounded by lra.
  rewrite raw_txScore_0, raw_protocolScore_0, raw_volumeScore_0,
    raw_recencyScore_90, raw_activeDaysScore_small by lra.
  unfold Spec.weighted.
  rewrite !(round_dp_eq 2 0), (round_dp_eq 3 0) by lra.
  f_equal; lra.
Qed.

Lemma computeScores_one_active_day :
  computeScores 0 1 0 0 (Some 90) =
    {| txScore := 0; activeDaysScore := 0; protocolScore := 0;
       volumeScore := 0; recencyScore := 0; finalScore := 0.001 |}.
Proof.
  rewrite computeScores_rounded by lra.
  rewrite raw_txScore_0, raw_protocolScore_0, raw_volumeScore_0,
    raw_recencyScore_90, raw_activeDaysScore_small by lra.
  unfold Spec.weighted.
  rewrite !(round_dp_eq 2 0), (round_dp_eq 3 1) by lra.
  f_equal; lra.
Qed.

Lemma round_dp_rounded (d : nat) (x : R) : rounded_dp d x (round_dp d x).
Proof.
  destruct (round_dp_nearest d x) as [Hgrid Hnear].
  split; [exact Hgrid|]. pose proof binary64_slack_pos. lra.
Qed.

(** C1.  On a non-negative transaction count, non-negative active days,
    protocols and volume and a positive recency, every sub-score that
    [computeScores] returns is the formula of the specification rounded to
    two decimals, and the final score is the weighted sum of the unrounded
    sub-scores rounded to three decimals, each a number of that many
    decimals nearest to the value up to the slack for binary64; without a
    recency argument the recency is 2 days. *)
Theorem computeScores_formulas
    (txCount : Z) (activeDays protocols volumeUSD recencyDays : R) :
  (0 <= txCount)%Z -> 0 <= activeDays -> 0 <= protocols ->
  0 <= volumeUSD -> 0 < recencyDays ->
  let sb := computeScores (IZR txCount) activeDays protocols volumeUSD
              (Some recencyDays) in
  let tx := Spec.txScore (IZR txCount) in
  let ad := Spec.activeDaysScore activeDays in
  let pr := Spec.protocolScore protocols in
  let vol := Spec.volumeScore volumeUSD in
  let rec := Spec.recencyScore recencyDays in
  rounded_dp 2 tx (txScore sb) /\
  rounded_dp 2 ad (activeDaysScore sb) /\
  rounded_dp 2 pr (protocolScore sb) /\
  rounded_dp 2 vol (volumeScore sb) /\
  rounded_dp 2 rec (recencyScore sb) /\
  rounded_dp 3 (Spec.weighted tx ad pr vol rec) (finalScore sb) /\
  computeScores (IZR txCount) activeDays protocols volumeUSD None =
    computeScores (IZR txCount) activeDays protocols volumeUSD (Some 2).
Proof.
  intros Ht Ha Hp Hv Hr sb tx ad pr vol rec.
  assert (Ht' : 0 <= IZR txCount) by now apply IZR_le.
  subst sb. rewrite computeScores_rounded by assumption.
  cbn [txScore activeDaysScore protocolScore volumeScore recencyScore
         finalScore].
  refine (conj _ (conj _ (conj _ (conj _ (conj _ (conj _ _))))));
    first [apply round_dp_rounded | reflexivity].
Qed.

Lemma computeScores_formulas_witness :
  let sb := computeScores 1000 365 8 100 (Some 7) in
  rounded_dp 2 (Spec.txScore 1000) (txScore sb) /\
  rounded_dp 2 (Spec.activeDaysScore 365) (activeDaysScore sb) /\
  rounded_dp 2 (Spec.protocolScore 8) (protocolScore sb) /\
  rounded_dp 2 (Spec.volumeScore 100) (volumeScore sb) /\
  rounded_dp 2 (Spec.recencyScore 7) (recencyScore sb) /\
  rounded_dp 3
    (Spec.weighted (Spec.txScore 1000) (Spec.activeDaysScore 365)
       (Spec.protocolScore 8) (Spec.volumeScore 100) (Spec.recencyScore 7))
    (finalScore sb) /\
  computeScores 1000 365 8 100 None = computeScores 1000 365 8 100 (Some 2).
Proof.
  apply (computeScores_formulas 1000 365 8 100 7); first [lia | lra].
Defined.

(** The final score of a wallet with one active day and nothing else is
    0.001 while every sub-score it is returned with is 0. *)
Lemma computeScores_invariant_counterexample :
  finalScore (computeScores 0 1 0 0 (Some 90)) <>
    0.35 * txScore (computeScores 0 1 0 0 (Some 90))
    + 0.25 * activeDaysScore (computeScores 0 1 0 0 (Some 90))
    + 0.20 * protocolScore (computeScores 0 1 0 0 (Some 90))
    + 0.15 * volumeScore (computeScores 0 1 0 0 (Some 90))
    + 0.05 * recencyScore (computeScores 0 1 0 0 (Some 90)).
Proof.
  rewrite computeScores_one_active_day.
  cbn [txScore activeDaysScore protocolScore volumeScore recencyScore
         finalScore].
  lra.
Qed.

(** C4, amended.  On non-negative inputs the final score that
    [computeScores] returns is the weighted sum of the unrounded sub-scores,
    with weights that add up to 1, rounded to three decimals (a whole
    thousandth nearest to the sum up to the slack for binary64); it lies in
    [0,1], and it is within 0.0055 of the weighted sum of the returned
    sub-scores. *)
Theorem computeScores_final_invariant
    (txCount activeDays protocols volumeUSD recencyDays : R) :
  0 <= txCount -> 0 <= activeDays -> 0 <= protocols -> 0 <= volumeUSD ->
  let sb := computeScores txCount activeDays protocols volumeUSD
              (Some recencyDays) in
  rounded_dp 3
    (Spec.weighted (Spec.txScore txCount) (Spec.activeDaysScore activeDays)
       (Spec.protocolScore protocols) (Spec.volumeScore volumeUSD)
       (Spec.recencyScore recencyDays))
    (finalScore sb) /\
  0.35 + 0.25 + 0.20 + 0.15 + 0.05 = 1 /\
  0 <= finalScore sb <= 1 /\
  Rabs (finalScore sb - weighted_fields sb) <= 0.0055.
Proof.
  intros Ht Ha Hp Hv sb.
  subst sb. rewrite computeScores_rounded by assumption.
  unfold weighted_fields.
  cbn [txScore activeDaysScore protocolScore volumeScore recencyScore
         finalScore].
  split; [apply round_dp_rounded|]. split; [lra|]. split.
  - apply round_dp_unit. rewrite <- raw_finalScore_weighted.
    now apply raw_finalScore_unit.
  - pose proof (round_dp_close 2 (raw_txScore txCount)).
    pose proof (round_dp_close 2 (raw_activeDaysScore activeDays)).
    pose proof (round_dp_close 2 (raw_protocolScore protocols)).
    pose proof (round_dp_close 2 (raw_volumeScore volumeUSD)).
    pose proof (round_dp_close 2 (raw_recencyScore recencyDays)).
    match goal with
    | |- context [round_dp 3 ?w] => pose proof (round_dp_close 3 w)
    end.
    apply Rabs_le. unfold Spec.weighted in *. lra.
Qed.

Lemma computeScores_final_invariant_witness :
  let sb := computeScores 0 1 0 0 (Some 90) in
  rounded_dp 3
    (Spec.weighted (Spec.txScore 0) (Spec.activeDaysScore 1)
       (Spec.protocolScore 0) (Spec.volumeScore 0) (Spec.recencyScore 90))
    (finalScore sb) /\
  0.35 + 0.25 + 0.20 + 0.15 + 0.05 = 1 /\
  0 <= finalScore sb <= 1 /\
  Rabs (finalScore sb - weighted_fields sb) <= 0.0055.
Proof.
  apply (computeScores_final_invariant 0 1 0 0 90); lra.
Defined.

(** ** The orchestrator *)

Ltac run_orchestrator :=
  unfold getRewardEstimate, getOnChainData, fetched, pipeline,
    numeric_results, empty_text_narrative;
  cbn [bind try_catch get_property own_property String.eqb Ascii.eqb
         Bool.eqb activityScore estimatedRewards stats scoreBreakdown
         explanation suggestions].

Lemma getRewardEstimate_returns (rpc : RpcOutcome) (n : NarrativeOutcome) :
  exists r, getRewardEstimate rpc n = Returns r /\
            numeric_results r = pipeline (fetched rpc).
Proof.
  destruct rpc; destruct n as [| |[v|]]; try destruct v;
    run_orchestrator; eexists; split; reflexivity.
Qed.

Lemma deriveStats_zero :
  deriveStats 0 0 =
    {| activeDays := 0; volumeUSD := 0;
       volumeMethod := "Casual (~$15/op)"; protocols := 0;
       recencyDays := 90 |}.
Proof.
  unfold deriveStats, base_tier, wealth_tier. js_cases.
  assert (Hm : meaningfulTxCount 0 = 0).
  { unfold meaningfulTxCount, Math_floor. f_equal.
    apply Zfloor_eq. simpl. lra. }
  rewrite Hm. unfold estimatedActiveDays, estimatedProtocols,
    estimatedRecencyDays.
  js_cases. js_eq_cases.
  f_equal. apply (Math_round_eq 0). lra.
Qed.

Lemma toFixed_4_zero : toFixed 4 0 = "0.0000"%string.
Proof.
  unfold toFixed. js_cases. unfold fixed_digits.
  rewrite (Zfloor_eq 0) by (simpl; lra). reflexivity.
Qed.

Lemma pipeline_zero :
  pipeline {| RealData.balance := 0; RealData.txCount := 0;
              RealData.error := Some "Could not fetch on-chain data"%string |}
  = (0, 0,
     {| Stats.balance := "0.0000"; Stats.txCount := 0;
        Stats.activeDays := 0; Stats.volumeUSD := 0;
        Stats.volumeMethod := "Casual (~$15/op)"; Stats.protocols := 0 |},
     {| txScore := 0; activeDaysScore := 0; protocolScore := 0;
        volumeScore := 0; recencyScore := 0; finalScore := 0 |}).
Proof.
  unfold pipeline. cbn [RealData.balance RealData.txCount].
  rewrite deriveStats_zero.
  cbn [activeDays volumeUSD volumeMethod protocols recencyDays].
  rewrite computeScores_zero, toFixed_4_zero. cbn [finalScore].
  replace (mapScoreToRewards 0) with 0; [reflexivity|].
  unfold mapScoreToRewards. js_cases.
Qed.

(** C8.  When the fetch of the on-chain data fails, [getOnChainData]
    returns a balance of 0 and a transaction count of 0, and
    [getRewardEstimate] runs the pipeline on them and returns its result,
    whatever the narrative call does; no outcome of the fetch makes
    [getRewardEstimate] throw. *)
Theorem getRewardEstimate_fetch_failure :
  getOnChainData RpcRejects =
    Returns {| RealData.balance := 0; RealData.txCount := 0;
               RealData.error := Some "Could not fetch on-chain data"%string |}
  /\
  (forall n : NarrativeOutcome,
     exists r, getRewardEstimate RpcRejects n = Returns r /\
       numeric_results r =
         pipeline {| RealData.balance := 0; RealData.txCount := 0;
                     RealData.error :=
                       Some "Could not fetch on-chain data"%string |} /\
       activityScore r = 0 /\
       estimatedRewards r = 0 /\
       stats r =
         {| Stats.balance := "0.0000"; Stats.txCount := 0;
            Stats.activeDays := 0; Stats.volumeUSD := 0;
            Stats.volumeMethod := "Casual (~$15/op)";
            Stats.protocols := 0 |}) /\
  (forall (rpc : RpcOutcome) (n : NarrativeOutcome),
     exists r, getRewardEstimate rpc n = Returns r).
Proof.
  split; [reflexivity|]. split.
  - intros n.
    destruct (getRewardEstimate_returns RpcRejects n) as (r & Hr & Hnum).
    exists r. split; [exact Hr|].
    change (fetched RpcRejects)
      with {| RealData.balance := 0; RealData.txCount := 0;
              RealData.error := Some "Could not fetch on-chain data"%string |}
      in Hnum.
    split; [exact Hnum|].
    rewrite pipeline_zero in Hnum. unfold numeric_results in Hnum.
    injection Hnum as -> -> -> _. repeat split.
  - intros rpc n.
    destruct (getRewardEstimate_returns rpc n) as (r & Hr & _). eauto.
Qed.

(** C9.  A response of the wrong shape is not replaced by a fallback: when
    the text of the response is the JSON object without members,
    [getRewardEstimate] returns [undefined] for the explanation and for the
    suggestions, where the two paths beside it, a response without text and
    a failed call, return a text and three suggestions. *)
Theorem getRewardEstimate_unchecked_response :
  (exists r,
     getRewardEstimate (RpcResolves 0 0)
       (ResponseText (Returns (JsObject []))) = Returns r /\
     explanation r = JsUndefined /\
     suggestions r = JsUndefined /\
     ~ complete_narrative r) /\
  (exists r,
     getRewardEstimate (RpcResolves 0 0) ResponseWithoutText = Returns r /\
     complete_narrative r) /\
  (exists r,
     getRewardEstimate (RpcResolves 0 0) GenerateContentRejects = Returns r /\
     complete_narrative r).
Proof.
  split; [|split].
  - eexists. split; [reflexivity|].
    cbn [explanation suggestions].
    split; [reflexivity|]. split; [reflexivity|].
    intros [[e He] _]. cbn in He. discriminate He.
  - eexists. split; [reflexivity|].
    split; [eexists; reflexivity|do 3 eexists; reflexivity].
  - eexists. split; [reflexivity|].
    split; [eexists; reflexivity|do 3 eexists; reflexivity].
Qed.

(** X21.  Whatever the narrative call does, [getRewardEstimate] returns a
    result whose score, reward, statistics and breakdown are the ones
    computed before the call.  When the call fails, or its text is not
    JSON, or its text is JSON for [null], the narrative is the fallback text
    and its three suggestions; when the response has no text it is the
    default text and its three suggestions; in both cases the narrative is
    complete.  Any other parsed response is read without a check of its
    shape: an object gives its two members, [undefined] where it has none,
    and a number, a string, a boolean or an array gives [undefined] for
    both. *)
Theorem getRewardEstimate_narrative_fallback
    (rpc : RpcOutcome) (n : NarrativeOutcome) :
  exists r,
    getRewardEstimate rpc n = Returns r /\
    numeric_results r = pipeline (fetched rpc) /\
    (n = GenerateContentRejects \/ n = ResponseText Throws \/
     n = ResponseText (Returns JsNull) ->
     explanation r =
       JsString "We calculated your score based on your wallet activity pattern."
     /\ suggestions r =
       JsArray [ JsString "Interact with more protocols";
                 JsString "Increase transaction volume";
                 JsString "Maintain monthly activity" ]
     /\ complete_narrative r) /\
    (n = ResponseWithoutText ->
     explanation r =
       JsString "Analysis complete based on your on-chain activity pattern."
     /\ suggestions r =
       JsArray [ JsString "Maintain weekly activity";
                 JsString "Try Aerodrome or Moonwell";
                 JsString "Increase transaction volume" ]
     /\ complete_narrative r) /\
    (forall v, n = ResponseText (Returns v) ->
     v <> JsNull -> v <> JsUndefined ->
     explanation r = narrative_read "explanation" v /\
     suggestions r = narrative_read "suggestions" v).
Proof.
  destruct (getRewardEstimate_returns rpc n) as (r & Hr & Hnum).
  exists r. split; [exact Hr|]. split; [exact Hnum|].
  assert (Hcomplete : forall e a b c,
             explanation r = JsString e ->
             suggestions r = JsArray [JsString a; JsString b; JsString c] ->
             complete_narrative r).
  { intros e a b c He Hs. split; eauto. }
  split; [|split].
  - intros [->|[->| ->]]; revert Hr Hcomplete; run_orchestrator;
      intros [= <-] Hcomplete;
      (split; [reflexivity|split; [reflexivity|]]);
      eapply Hcomplete; reflexivity.
  - intros ->. revert Hr Hcomplete. run_orchestrator.
    intros [= <-] Hcomplete.
    split; [reflexivity|split; [reflexivity|]].
    eapply Hcomplete; reflexivity.
  - intros v -> Hnull Hundef. revert Hr.
    destruct v; try contradiction; run_orchestrator;
      intros [= <-]; split; reflexivity.
Qed.

Lemma getRewardEstimate_narrative_fallback_witness :
  exists r,
    getRewardEstimate RpcRejects GenerateContentRejects = Returns r /\
    explanation r =
      JsString "We calculated your score based on your wallet activity pattern."
    /\ complete_narrative r.
Proof.
  destruct (getRewardEstimate_narrative_fallback RpcRejects
              GenerateContentRejects)
    as (r & Hr & _ & Hfail & _).
  exists r. split; [exact Hr|].
  destruct Hfail as (He & _ & Hc); [left; reflexivity|].
  split; [exact He|exact Hc].
Defined.

(** * Further properties of the scoring model *)

(** ** Monotonicity of the building blocks *)

Lemma round_dp_le (d : nat) (x y : R) : x <= y -> round_dp d x <= round_dp d y.
Proof.
  intros Hxy. unfold round_dp.
  assert (Hp : 0 < 10 ^ d) by (apply pow_lt; lra).
  apply Rmult_le_compat_r; [left; now apply Rinv_0_lt_compat|].
  apply Math_round_le. nra.
Qed.

Lemma round_dp_integer (d : nat) (x : R) :
  exists n : Z, round_dp d x = IZR n / 10 ^ d.
Proof. unfold round_dp, Math_round. eauto. Qed.

Lemma ln_le (x y : R) : 0 < x -> x <= y -> ln x <= ln y.
Proof.
  intros Hx [Hlt | ->]; [left; now apply ln_increasing | lra].
Qed.

Lemma ln_10_pos : 0 < ln 10.
Proof. rewrite <- ln_1. apply ln_increasing; lra. Qed.

Lemma Math_log10_le (x y : R) :
  0 < x -> x <= y -> Math_log10 x <= Math_log10 y.
Proof.
  intros Hx Hxy. unfold Math_log10.
  apply Rmult_le_compat_r; [left; apply Rinv_0_lt_compat, ln_10_pos|].
  now apply ln_le.
Qed.

Lemma Math_min_1_le (x y : R) : x <= y -> Math_min x 1 <= Math_min y 1.
Proof. intros H. unfold Math_min. now apply Rle_min_compat_r. Qed.

Lemma raw_txScore_le (t1 t2 : R) :
  0 <= t1 -> t1 <= t2 -> raw_txScore t1 <= raw_txScore t2.
Proof.
  intros H1 H12. apply Math_min_1_le.
  pose proof (Math_log10_le (t1 + 1) (t2 + 1) ltac:(lra) ltac:(lra)). lra.
Qed.

Lemma raw_activeDaysScore_le (a1 a2 : R) :
  a1 <= a2 -> raw_activeDaysScore a1 <= raw_activeDaysScore a2.
Proof. intros H. apply Math_min_1_le. lra. Qed.

Lemma raw_protocolScore_le (p1 p2 : R) :
  p1 <= p2 -> raw_protocolScore p1 <= raw_protocolScore p2.
Proof. intros H. apply Math_min_1_le. lra. Qed.

Lemma raw_volumeScore_le (v1 v2 : R) :
  0 <= v1 -> v1 <= v2 -> raw_volumeScore v1 <= raw_volumeScore v2.
Proof.
  intros H1 H12. apply Math_min_1_le.
  pose proof (Math_log10_le (v1 + 1) (v2 + 1) ltac:(lra) ltac:(lra)). lra.
Qed.

Lemma raw_recencyScore_antitone (d1 d2 : R) :
  d1 <= d2 -> raw_recencyScore d2 <= raw_recencyScore d1.
Proof.
  intros H. pose proof (raw_recencyScore_unit d2) as [_ Hle].
  unfold raw_recencyScore, Math_max in *.
  destruct (Rle_dec d1 7), (Rle_dec d2 7); try lra.
  apply Rle_max_compat_l. lra.
Qed.

Lemma weighted_le (tx ad pr vol rec tx' ad' pr' vol' rec' : R) :
  tx <= tx' -> ad <= ad' -> pr <= pr' -> vol <= vol' -> rec <= rec' ->
  Spec.weighted tx ad pr vol rec <= Spec.weighted tx' ad' pr' vol' rec'.
Proof. unfold Spec.weighted. lra. Qed.

(** More activity in any dimension, and a more recent transaction, never
    lower a score. *)
Lemma computeScores_le (t1 a1 p1 v1 d1 t2 a2 p2 v2 d2 : R) :
  0 <= t1 -> 0 <= a1 -> 0 <= p1 -> 0 <= v1 ->
  t1 <= t2 -> a1 <= a2 -> p1 <= p2 -> v1 <= v2 -> d2 <= d1 ->
  let sb1 := computeScores t1 a1 p1 v1 (Some d1) in
  let sb2 := computeScores t2 a2 p2 v2 (Some d2) in
  txScore sb1 <= txScore sb2 /\
  activeDaysScore sb1 <= activeDaysScore sb2 /\
  protocolScore sb1 <= protocolScore sb2 /\
  volumeScore sb1 <= volumeScore sb2 /\
  recencyScore sb1 <= recencyScore sb2 /\
  finalScore sb1 <= finalScore sb2.
Proof.
  intros Ht Ha Hp Hv Ht12 Ha12 Hp12 Hv12 Hd sb1 sb2. subst sb1 sb2.
  rewrite !computeScores_rounded by lra.
  cbn [txScore activeDaysScore protocolScore volumeScore recencyScore
         finalScore].
  pose proof (raw_txScore_le _ _ Ht Ht12).
  pose proof (raw_activeDaysScore_le _ _ Ha12).
  pose proof (raw_protocolScore_le _ _ Hp12).
  pose proof (raw_volumeScore_le _ _ Hv Hv12).
  pose proof (raw_recencyScore_antitone _ _ Hd).
  repeat split; apply round_dp_le; try assumption.
  now apply weighted_le.
Qed.

(** X1.  On non-negative inputs every field that [computeScores] returns
    lies in [0,1]; the five sub-scores are whole hundredths and the final
    score is a whole thousandth. *)
Theorem computeScores_fields_unit
    (txCount activeDays protocols volumeUSD recencyDays : R) :
  0 <= txCount -> 0 <= activeDays -> 0 <= protocols -> 0 <= volumeUSD ->
  let sb := computeScores txCount activeDays protocols volumeUSD
              (Some recencyDays) in
  (forall field,
     In field [txScore; activeDaysScore; protocolScore; volumeScore;
               recencyScore] ->
     0 <= field sb <= 1 /\ exists n : Z, field sb = IZR n / 100) /\
  0 <= finalScore sb <= 1 /\
  exists n : Z, finalScore sb = IZR n / 1000.
Proof.
  intros Ht Ha Hp Hv sb. subst sb.
  rewrite computeScores_rounded by assumption.
  pose proof (raw_txScore_unit _ Ht).
  pose proof (raw_activeDaysScore_unit _ Ha).
  pose proof (raw_protocolScore_unit _ Hp).
  pose proof (raw_volumeScore_unit _ Hv).
  pose proof (raw_recencyScore_unit recencyDays).
  pose proof (raw_finalScore_unit _ _ _ _ recencyDays Ht Ha Hp Hv) as Hf.
  rewrite raw_finalScore_weighted in Hf.
  assert (H100 : (10 ^ 2 = 100)%R) by lra.
  assert (H1000 : (10 ^ 3 = 1000)%R) by lra.
  split; [|split].
  - intros field Hin. cbn [In] in Hin.
    destruct Hin as [<-|[<-|[<-|[<-|[<-|[]]]]]];
      cbn [txScore activeDaysScore protocolScore volumeScore recencyScore];
      (split; [now apply round_dp_unit
              | rewrite <- H100; apply round_dp_integer]).
  - cbn [finalScore]. now apply round_dp_unit.
  - cbn [finalScore]. rewrite <- H1000. apply round_dp_integer.
Qed.

Lemma computeScores_fields_unit_witness :
  0 <= txScore (computeScores 12 30 3 500 (Some 10)) <= 1.
Proof.
  destruct (computeScores_fields_unit 12 30 3 500 10) as [H _];
    try lra.
  apply (H txScore). cbn. auto.
Defined.

(** X2.  [computeScores] is monotone: on non-negative inputs, more
    transactions, active days, protocols or volume and fewer days since the
    last activity lower no returned sub-score and not the final score. *)
Theorem computeScores_monotone (t1 a1 p1 v1 d1 t2 a2 p2 v2 d2 : R) :
  0 <= t1 -> 0 <= a1 -> 0 <= p1 -> 0 <= v1 ->
  t1 <= t2 -> a1 <= a2 -> p1 <= p2 -> v1 <= v2 -> d2 <= d1 ->
  let sb1 := computeScores t1 a1 p1 v1 (Some d1) in
  let sb2 := computeScores t2 a2 p2 v2 (Some d2) in
  txScore sb1 <= txScore sb2 /\
  activeDaysScore sb1 <= activeDaysScore sb2 /\
  protocolScore sb1 <= protocolScore sb2 /\
  volumeScore sb1 <= volumeScore sb2 /\
  recencyScore sb1 <= recencyScore sb2 /\
  finalScore sb1 <= finalScore sb2.
Proof.
  intros Ht Ha Hp Hv Ht12 Ha12 Hp12 Hv12 Hd sb1 sb2. subst sb1 sb2.
  rewrite !computeScores_rounded by lra.
  cbn [txScore activeDaysScore protocolScore volumeScore recencyScore
         finalScore].
  pose proof (raw_txScore_le _ _ Ht Ht12).
  pose proof (raw_activeDaysScore_le _ _ Ha12).
  pose proof (raw_protocolScore_le _ _ Hp12).
  pose proof (raw_volumeScore_le _ _ Hv Hv12).
  pose proof (raw_recencyScore_antitone _ _ Hd).
  repeat split; apply round_dp_le; try assumption.
  now apply weighted_le.
Qed.

Lemma computeScores_monotone_witness :
  finalScore (computeScores 10 20 2 300 (Some 30))
  <= finalScore (computeScores 40 25 2 900 (Some 12)).
Proof.
  apply (computeScores_monotone 10 20 2 300 30 40 25 2 900 12); lra.
Defined.

(** ** Saturation *)

Lemma Math_log10_ge (x c : R) : c * ln 10 <= ln x -> c <= Math_log10 x.
Proof.
  intros H. unfold Math_log10. pose proof ln_10_pos.
  apply Rmult_le_reg_r with (ln 10); [assumption|].
  unfold Rdiv. rewrite Rmult_assoc, Rinv_l by lra. lra.
Qed.

Lemma Math_min_saturated (x : R) : 1 <= x -> Math_min x 1 = 1.
Proof. intros H. unfold Math_min. now apply Rmin_right. Qed.

Lemma raw_txScore_saturated (t : R) : 999 <= t -> raw_txScore t = 1.
Proof.
  intros Ht. apply Math_min_saturated.
  assert (3 <= Math_log10 (t + 1)); [|lra].
  apply Math_log10_ge.
  replace (3 * ln 10) with (ln (10 ^ 3)) by (rewrite ln_pow; simpl; lra).
  apply ln_le; lra.
Qed.

Lemma raw_volumeScore_saturated (v : R) : 630957 <= v -> raw_volumeScore v = 1.
Proof.
  intros Hv. apply Math_min_saturated.
  assert (5.8 <= Math_log10 (v + 1)); [|lra].
  apply Math_log10_ge.
  assert (H5 : 29 * ln 10 <= 5 * ln (v + 1)); [|lra].
  replace (29 * ln 10) with (ln (10 ^ 29)) by (rewrite ln_pow; simpl; lra).
  replace (5 * ln (v + 1)) with (ln ((v + 1) ^ 5))
    by (rewrite ln_pow; simpl; lra).
  apply ln_le; [apply pow_lt; lra|].
  apply Rle_trans with (630958 ^ 5); [lra|].
  apply pow_incr. lra.
Qed.

Lemma round_dp_1 (d : nat) : round_dp d 1 = 1.
Proof.
  assert (Hp : 0 < 10 ^ d) by (apply pow_lt; lra).
  unfold round_dp. rewrite Rmult_1_l, (pow_IZR 10 d).
  rewrite (Math_round_eq (10 ^ Z.of_nat d)) by lra.
  rewrite <- (pow_IZR 10 d). field. lra.
Qed.

Lemma round_dp_0 (d : nat) : round_dp d 0 = 0.
Proof.
  unfold round_dp. rewrite Rmult_0_l, Math_round_0. lra.
Qed.

Lemma computeScores_full (t a p v d : R) :
  999 <= t -> 365 <= a -> 8 <= p -> 630957 <= v -> d <= 7 ->
  computeScores t a p v (Some d) =
    {| txScore := 1; activeDaysScore := 1; protocolScore := 1;
       volumeScore := 1; recencyScore := 1; finalScore := 1 |}.
Proof.
  intros Ht Ha Hp Hv Hd.
  rewrite computeScores_rounded by lra.
  rewrite raw_txScore_saturated, raw_volumeScore_saturated by assumption.
  assert (Had : raw_activeDaysScore a = 1)
    by (apply Math_min_saturated; lra).
  assert (Hpr : raw_protocolScore p = 1)
    by (apply Math_min_saturated; lra).
  assert (Hrec : raw_recencyScore d = 1)
    by (unfold raw_recencyScore; js_cases).
  rewrite Had, Hpr, Hrec.
  replace (Spec.weighted 1 1 1 1 1) with 1 by (unfold Spec.weighted; lra).
  now rewrite !round_dp_1.
Qed.

(** X3.  From 999 transactions, 365 active days, 8 protocols, a volume of
    630957 and a last activity within 7 days on, [computeScores] returns 1
    in every field; and whatever the other inputs are, from 90 days without
    activity on the recency score it returns is 0. *)
Theorem computeScores_saturation (t a p v d : R) :
  (999 <= t -> 365 <= a -> 8 <= p -> 630957 <= v -> d <= 7 ->
   computeScores t a p v (Some d) =
     {| txScore := 1; activeDaysScore := 1; protocolScore := 1;
        volumeScore := 1; recencyScore := 1; finalScore := 1 |}) /\
  (90 <= d -> recencyScore (computeScores t a p v (Some d)) = 0).
Proof.
  split; [apply computeScores_full|].
  intros Hd. unfold computeScores. cbn [recencyScore].
  assert (Hrec : raw_recencyScore d = 0).
  { unfold raw_recencyScore, Math_max. js_cases. apply Rmax_left. lra. }
  rewrite Hrec, toFixed_num_round_dp by lra. apply round_dp_0.
Qed.

Lemma computeScores_saturation_witness :
  computeScores 1000 365 8 630957 (Some 7) =
    {| txScore := 1; activeDaysScore := 1; protocolScore := 1;
       volumeScore := 1; recencyScore := 1; finalScore := 1 |} /\
  recencyScore (computeScores 1 1 0 15 (Some 90)) = 0.
Proof.
  split.
  - apply (proj1 (computeScores_saturation 1000 365 8 630957 7)); lra.
  - apply (proj2 (computeScores_saturation 1 1 0 15 90)). lra.
Defined.

(** ** The reward curve *)

Lemma mapScoreToRewards_upper (s : R) : mapScoreToRewards s <= 12000.
Proof.
  destruct (Rle_dec s 2) as [Hs|Hs].
  - rewrite <- (mapScoreToRewards_above 2) by lra.
    now apply mapScoreToRewards_le.
  - rewrite mapScoreToRewards_above by lra. lra.
Qed.

Lemma mapScoreToRewards_small (s : R) :
  s < / 1600 -> mapScoreToRewards s = 0.
Proof.
  intros Hs. unfold mapScoreToRewards.
  cbn [length MAPPING_POINTS Nat.sub mapping_loop]. unfold_points.
  js_cases. apply (Math_round_eq 0). lra.
Qed.

Lemma mapScoreToRewards_positive (s : R) :
  / 1600 <= s -> 1 <= mapScoreToRewards s.
Proof.
  intros Hs.
  apply Rle_trans with (mapScoreToRewards (/ 1600));
    [|now apply mapScoreToRewards_le].
  right. symmetry. unfold mapScoreToRewards.
  cbn [length MAPPING_POINTS Nat.sub mapping_loop]. unfold_points.
  js_cases. apply (Math_round_eq 1). lra.
Qed.

Lemma Math_round_ext (x y : R) : x = y -> Math_round x = Math_round y.
Proof. now intros ->. Qed.

(** X4.  The reward is an integer between 0 and 12000 for every score,
    in range or not. *)
Theorem mapScoreToRewards_range (s : R) :
  exists n : Z, (0 <= n <= 12000)%Z /\ mapScoreToRewards s = IZR n.
Proof.
  destruct (mapScoreToRewards_integer s) as (n & Hn & Heq).
  exists n. split; [|exact Heq]. split; [exact Hn|].
  apply le_IZR. rewrite <- Heq. apply mapScoreToRewards_upper.
Qed.

(** X5.  The curve passes through every control point: at the score of a
    point of [MAPPING_POINTS] the reward is the rounded pool share of that
    point, whichever of the two pairs that meet there the loop takes. *)
Theorem mapScoreToRewards_control_points (p : MappingPoint) :
  In p MAPPING_POINTS ->
  mapScoreToRewards (score p) = Math_round (POOL_SIZE * pct p).
Proof.
  intros Hin. cbn [In MAPPING_POINTS] in Hin.
  destruct Hin as [<-|[<-|[<-|[<-|[<-|[]]]]]];
    unfold mapScoreToRewards;
    cbn [length MAPPING_POINTS Nat.sub mapping_loop]; unfold_points;
    js_cases;
    try (symmetry; apply (Math_round_eq 0); lra);
    apply Math_round_ext; lra.
Qed.

Lemma mapScoreToRewards_control_points_witness :
  mapScoreToRewards 0.75 = Math_round (POOL_SIZE * 0.0000045).
Proof.
  apply (mapScoreToRewards_control_points {| score := 0.75; pct := 0.0000045 |}).
  cbn. auto.
Defined.

(** X6.  Below a score of 1/1600 the reward rounds to 0, and above it the
    reward is at least 1: a positive score alone does not earn a token. *)
Theorem mapScoreToRewards_threshold (s : R) :
  (s < / 1600 -> mapScoreToRewards s = 0) /\
  (/ 1600 < s -> 1 <= mapScoreToRewards s).
Proof.
  split.
  - apply mapScoreToRewards_small.
  - intros Hs. apply mapScoreToRewards_positive. lra.
Qed.

Lemma mapScoreToRewards_threshold_witness :
  mapScoreToRewards 0.0005 = 0 /\ 1 <= mapScoreToRewards 0.001.
Proof.
  split.
  - apply (proj1 (mapScoreToRewards_threshold 0.0005)). lra.
  - apply (proj2 (mapScoreToRewards_threshold 0.001)). lra.
Defined.

(** ** The derived statistics *)

Lemma deriveStats_fields (t b : R) :
  activeDays (deriveStats t b) = estimatedActiveDays t /\
  protocols (deriveStats t b) = estimatedProtocols (meaningfulTxCount t) /\
  recencyDays (deriveStats t b) = estimatedRecencyDays (meaningfulTxCount t).
Proof.
  unfold deriveStats.
  destruct (base_tier t) as [v l]. destruct (wealth_tier b l).
  repeat split.
Qed.

Lemma meaningfulTxCount_nonneg (t : R) :
  0 <= t -> exists k : Z, (0 <= k)%Z /\ meaningfulTxCount t = IZR k.
Proof.
  intros Ht. exists (Zfloor (t * 0.8)). split; [|reflexivity].
  apply Zfloor_lub. simpl. lra.
Qed.

Lemma meaningfulTxCount_le (t1 t2 : R) :
  t1 <= t2 -> meaningfulTxCount t1 <= meaningfulTxCount t2.
Proof.
  intros H. unfold meaningfulTxCount, Math_floor.
  apply IZR_le, Zfloor_le. lra.
Qed.

Lemma IZR_pos_ge_1 (k : Z) : (0 <= k)%Z -> IZR k <> 0 -> 1 <= IZR k.
Proof.
  intros Hk Hne. apply IZR_le.
  assert (k <> 0)%Z by (intros ->; now apply Hne). lia.
Qed.

Lemma ln_nonneg (x : R) : 1 <= x -> 0 <= ln x.
Proof. intros Hx. rewrite <- ln_1. apply ln_le; lra. Qed.

Lemma Math_ceil_nonneg (x : R) : 0 <= x -> 0 <= Math_ceil x.
Proof.
  intros Hx. unfold Math_ceil.
  pose proof (Zceil_bound x). lra.
Qed.

Lemma estimatedProtocols_range (m : R) :
  0 <= m ->
  0 <= estimatedProtocols m <= 30 /\
  exists n : Z, estimatedProtocols m = IZR n.
Proof.
  intros Hm. unfold estimatedProtocols, Math_min, Math_log.
  destruct (Req_dec_T m 0) as [_|Hne].
  - split; [lra|now exists 0%Z].
  - pose proof (ln_nonneg (m + 1) ltac:(lra)).
    pose proof (Math_ceil_nonneg (ln (m + 1) * 2.1) ltac:(lra)).
    split.
    + split; [apply Rmin_glb; lra|apply Rmin_r].
    + unfold Rmin. destruct (Rle_dec _ _).
      * unfold Math_ceil. eauto.
      * now exists 30%Z.
Qed.

Lemma estimatedProtocols_le (m1 m2 : R) :
  0 <= m1 -> m1 <= m2 -> estimatedProtocols m1 <= estimatedProtocols m2.
Proof.
  intros H1 H12.
  pose proof (estimatedProtocols_range m2 ltac:(lra)) as [[Hlo _] _].
  unfold estimatedProtocols at 1.
  destruct (Req_dec_T m1 0) as [_|Hne1]; [exact Hlo|].
  unfold estimatedProtocols.
  destruct (Req_dec_T m2 0) as [->|Hne2]; [lra|].
  unfold Math_min, Math_ceil, Math_log.
  apply Rle_min_compat_r, IZR_le, Zceil_le.
  pose proof (ln_le (m1 + 1) (m2 + 1) ltac:(lra) ltac:(lra)). lra.
Qed.

Lemma ln_2_half : / 2 < ln 2.
Proof. exact ln_lt_2. Qed.

Lemma recency_quotient_bounds (m : R) :
  1 <= m -> 0 < 30 / (ln (m + 1) + 0.1) < 50.
Proof.
  intros Hm. pose proof ln_2_half.
  pose proof (ln_le 2 (m + 1) ltac:(lra) ltac:(lra)).
  assert (Hden : 0.6 < ln (m + 1) + 0.1) by lra.
  split.
  - apply Rdiv_lt_0_compat; lra.
  - apply Rmult_lt_reg_r with (ln (m + 1) + 0.1); [lra|].
    unfold Rdiv. rewrite Rmult_assoc, Rinv_l by lra. lra.
Qed.

Lemma estimatedRecencyDays_range (k : Z) :
  (0 <= k)%Z ->
  1 <= estimatedRecencyDays (IZR k) <= 90 /\
  exists n : Z, estimatedRecencyDays (IZR k) = IZR n.
Proof.
  intros Hk. unfold estimatedRecencyDays, Math_max, Math_floor, Math_log.
  destruct (Req_dec_T (IZR k) 0) as [_|Hne].
  - split; [lra|now exists 90%Z].
  - pose proof (IZR_pos_ge_1 k Hk Hne) as Hge.
    pose proof (recency_quotient_bounds (IZR k) Hge) as [Hq0 Hq50].
    pose proof (Zfloor_bound (30 / (ln (IZR k + 1) + 0.1))) as [Hfl _].
    split.
    + split; [apply Rmax_l|apply Rmax_lub; lra].
    + unfold Rmax. destruct (Rle_dec _ _).
      * eauto.
      * now exists 1%Z.
Qed.

Lemma estimatedRecencyDays_antitone (k1 k2 : Z) :
  (0 <= k1)%Z -> (k1 <= k2)%Z ->
  estimatedRecencyDays (IZR k2) <= estimatedRecencyDays (IZR k1).
Proof.
  intros H1 H12.
  pose proof (estimatedRecencyDays_range k2 ltac:(lia)) as [[_ Hhi] _].
  unfold estimatedRecencyDays at 2.
  destruct (Req_dec_T (IZR k1) 0) as [_|Hne1]; [exact Hhi|].
  pose proof (IZR_pos_ge_1 k1 H1 Hne1) as Hge1.
  assert (Hle : IZR k1 <= IZR k2) by now apply IZR_le.
  unfold estimatedRecencyDays.
  destruct (Req_dec_T (IZR k2) 0) as [H0|_]; [lra|].
  unfold Math_max, Math_floor, Math_log.
  apply Rle_max_compat_l, IZR_le, Zfloor_le.
  pose proof ln_2_half.
  pose proof (ln_le 2 (IZR k1 + 1) ltac:(lra) ltac:(lra)).
  pose proof (ln_le (IZR k1 + 1) (IZR k2 + 1) ltac:(lra) ltac:(lra)).
  apply Rmult_le_compat_l; [lra|].
  apply Rinv_le_contravar; lra.
Qed.

Lemma deriveStats_protocols_facts (t1 t2 b1 b2 : R) :
  0 <= t1 -> t1 <= t2 ->
  0 <= protocols (deriveStats t1 b1) <= 30 /\
  (exists n : Z, protocols (deriveStats t1 b1) = IZR n) /\
  protocols (deriveStats t1 b1) <= protocols (deriveStats t2 b2).
Proof.
  intros H1 H12.
  destruct (deriveStats_fields t1 b1) as (_ & -> & _).
  destruct (deriveStats_fields t2 b2) as (_ & -> & _).
  destruct (meaningfulTxCount_nonneg t1 H1) as (k & Hk & Hm).
  assert (0 <= meaningfulTxCount t1) by (rewrite Hm; now apply IZR_le).
  destruct (estimatedProtocols_range (meaningfulTxCount t1)) as [Hr Hi];
    [assumption|].
  repeat split; try tauto.
  apply estimatedProtocols_le; [assumption|].
  now apply meaningfulTxCount_le.
Qed.

Lemma deriveStats_recencyDays_facts (t1 t2 b1 b2 : R) :
  0 <= t1 -> t1 <= t2 ->
  1 <= recencyDays (deriveStats t1 b1) <= 90 /\
  (exists n : Z, recencyDays (deriveStats t1 b1) = IZR n) /\
  recencyDays (deriveStats t2 b2) <= recencyDays (deriveStats t1 b1).
Proof.
  intros H1 H12.
  destruct (deriveStats_fields t1 b1) as (_ & _ & ->).
  destruct (deriveStats_fields t2 b2) as (_ & _ & ->).
  destruct (meaningfulTxCount_nonneg t1 H1) as (k1 & Hk1 & Hm1).
  destruct (meaningfulTxCount_nonneg t2 ltac:(lra)) as (k2 & Hk2 & Hm2).
  pose proof (meaningfulTxCount_le t1 t2 H12) as Hle.
  rewrite Hm1, Hm2 in *.
  destruct (estimatedRecencyDays_range k1 Hk1) as [Hr Hi].
  repeat split; try tauto.
  apply estimatedRecencyDays_antitone; [assumption|now apply le_IZR].
Qed.

Lemma deriveStats_volumeUSD_facts (t1 t2 b1 b2 : R) :
  0 <= t1 -> t1 <= t2 -> b1 <= b2 ->
  (exists n : Z, (0 <= n)%Z /\ volumeUSD (deriveStats t1 b1) = IZR n) /\
  volumeUSD (deriveStats t1 b1) <= volumeUSD (deriveStats t2 b2).
Proof.
  intros H1 H12 Hb. split.
  - unfold deriveStats, base_tier, wealth_tier.
    js_cases; cbn [volumeUSD]; apply Math_round_nonneg; lra.
  - unfold deriveStats, base_tier, wealth_tier.
    js_cases; cbn [volumeUSD]; apply Math_round_le; lra.
Qed.

(** X7.  For a transaction count [n] the meaningful count is [4n/5]
    rounded down; it is at most [n], and it is 0 exactly for the wallets
    with at most one transaction. *)
Theorem meaningfulTxCount_four_fifths (n : Z) :
  (0 <= n)%Z ->
  meaningfulTxCount (IZR n) = IZR (4 * n / 5) /\
  0 <= meaningfulTxCount (IZR n) <= IZR n /\
  (meaningfulTxCount (IZR n) = 0 <-> (n <= 1)%Z).
Proof.
  intros Hn.
  assert (Hq : (5 * (4 * n / 5) <= 4 * n < 5 * (4 * n / 5) + 5)%Z).
  { pose proof (Z.mul_div_le (4 * n) 5 ltac:(lia)).
    pose proof (Z.mul_succ_div_gt (4 * n) 5 ltac:(lia)). lia. }
  assert (Heq : meaningfulTxCount (IZR n) = IZR (4 * n / 5)).
  { unfold meaningfulTxCount, Math_floor. f_equal. apply Zfloor_eq.
    destruct Hq as [Hlo Hhi].
    apply IZR_le in Hlo. apply IZR_lt in Hhi.
    rewrite ?plus_IZR, ?mult_IZR in *. lra. }
  rewrite Heq. split; [reflexivity|]. split.
  - split; apply IZR_le; lia.
  - split.
    + intros H0. apply eq_IZR in H0. lia.
    + intros H1. f_equal.
      assert (n = 0 \/ n = 1)%Z as [-> | ->] by lia; reflexivity.
Qed.

Lemma meaningfulTxCount_four_fifths_witness :
  meaningfulTxCount 12 = 9.
Proof.
  apply (meaningfulTxCount_four_fifths 12). lia.
Defined.

(** X8.  On a non-negative transaction count the protocol estimate of
    [deriveStats] is an integer between 0 and 30, and it does not decrease
    when the count grows. *)
Theorem deriveStats_protocols (t1 t2 b1 b2 : R) :
  0 <= t1 -> t1 <= t2 ->
  0 <= protocols (deriveStats t1 b1) <= 30 /\
  (exists n : Z, protocols (deriveStats t1 b1) = IZR n) /\
  protocols (deriveStats t1 b1) <= protocols (deriveStats t2 b2).
Proof.
  intros H1 H12.
  destruct (deriveStats_fields t1 b1) as (_ & -> & _).
  destruct (deriveStats_fields t2 b2) as (_ & -> & _).
  destruct (meaningfulTxCount_nonneg t1 H1) as (k & Hk & Hm).
  assert (0 <= meaningfulTxCount t1) by (rewrite Hm; now apply IZR_le).
  destruct (estimatedProtocols_range (meaningfulTxCount t1)) as [Hr Hi];
    [assumption|].
  repeat split; try tauto.
  apply estimatedProtocols_le; [assumption|].
  now apply meaningfulTxCount_le.
Qed.

Lemma deriveStats_protocols_witness :
  protocols (deriveStats 10 0) <= protocols (deriveStats 100 1).
Proof.
  apply (deriveStats_protocols 10 100 0 1); lra.
Defined.

(** X9.  On a non-negative transaction count the recency estimate of
    [deriveStats] is an integer between 1 and 90 days, and it does not
    increase when the count grows. *)
Theorem deriveStats_recencyDays (t1 t2 b1 b2 : R) :
  0 <= t1 -> t1 <= t2 ->
  1 <= recencyDays (deriveStats t1 b1) <= 90 /\
  (exists n : Z, recencyDays (deriveStats t1 b1) = IZR n) /\
  recencyDays (deriveStats t2 b2) <= recencyDays (deriveStats t1 b1).
Proof.
  intros H1 H12.
  destruct (deriveStats_fields t1 b1) as (_ & _ & ->).
  destruct (deriveStats_fields t2 b2) as (_ & _ & ->).
  destruct (meaningfulTxCount_nonneg t1 H1) as (k1 & Hk1 & Hm1).
  destruct (meaningfulTxCount_nonneg t2 ltac:(lra)) as (k2 & Hk2 & Hm2).
  pose proof (meaningfulTxCount_le t1 t2 H12) as Hle.
  rewrite Hm1, Hm2 in *.
  destruct (estimatedRecencyDays_range k1 Hk1) as [Hr Hi].
  repeat split; try tauto.
  apply estimatedRecencyDays_antitone; [assumption|now apply le_IZR].
Qed.

Lemma deriveStats_recencyDays_witness :
  recencyDays (deriveStats 100 1) <= recencyDays (deriveStats 10 0).
Proof.
  apply (deriveStats_recencyDays 10 100 0 1); lra.
Defined.

(** X10.  On a non-negative transaction count the volume estimate of
    [deriveStats] is a non-negative integer, and it does not decrease when
    the count or the balance grows, across the tier boundaries too. *)
Theorem deriveStats_volumeUSD_monotone (t1 t2 b1 b2 : R) :
  0 <= t1 -> t1 <= t2 -> b1 <= b2 ->
  (exists n : Z, (0 <= n)%Z /\ volumeUSD (deriveStats t1 b1) = IZR n) /\
  volumeUSD (deriveStats t1 b1) <= volumeUSD (deriveStats t2 b2).
Proof.
  intros H1 H12 Hb. split.
  - unfold deriveStats, base_tier, wealth_tier.
    js_cases; cbn [volumeUSD]; apply Math_round_nonneg; lra.
  - unfold deriveStats, base_tier, wealth_tier.
    js_cases; cbn [volumeUSD]; apply Math_round_le; lra.
Qed.

Lemma deriveStats_volumeUSD_monotone_witness :
  volumeUSD (deriveStats 49 0.4) <= volumeUSD (deriveStats 50 5.5).
Proof.
  apply (deriveStats_volumeUSD_monotone 49 50 0.4 5.5); lra.
Defined.

(** ** The pipeline from the fetched data to the reward *)

Lemma deriveStats_activeDays_facts (t1 t2 b1 b2 : R) :
  t1 <= t2 ->
  0 <= activeDays (deriveStats t1 b1) /\
  activeDays (deriveStats t1 b1) <= activeDays (deriveStats t2 b2).
Proof.
  intros H12.
  destruct (deriveStats_fields t1 b1) as (-> & _).
  destruct (deriveStats_fields t2 b2) as (-> & _).
  split; [apply estimatedActiveDays_bounds|now apply estimatedActiveDays_le].
Qed.

Lemma pipeline_le (d1 d2 : RealData.t) :
  0 <= RealData.txCount d1 -> RealData.txCount d1 <= RealData.txCount d2 ->
  RealData.balance d1 <= RealData.balance d2 ->
  score_of (pipeline d1) <= score_of (pipeline d2) /\
  reward_of (pipeline d1) <= reward_of (pipeline d2).
Proof.
  intros H1 H12 Hb. unfold pipeline, score_of, reward_of. cbn [fst snd].
  set (t1 := RealData.txCount d1) in *. set (t2 := RealData.txCount d2) in *.
  set (b1 := RealData.balance d1) in *. set (b2 := RealData.balance d2) in *.
  destruct (deriveStats_activeDays_facts t1 t2 b1 b2 H12) as [Ha0 Ha].
  destruct (deriveStats_protocols_facts t1 t2 b1 b2 H1 H12)
    as ([Hp0 _] & _ & Hp).
  destruct (deriveStats_volumeUSD_facts t1 t2 b1 b2 H1 H12 Hb)
    as ((n & Hn & Hv0) & Hv).
  destruct (deriveStats_recencyDays_facts t1 t2 b1 b2 H1 H12) as (_ & _ & Hd).
  assert (Hvn : 0 <= volumeUSD (deriveStats t1 b1))
    by (rewrite Hv0; now apply IZR_le).
  assert (Hfinal :
    finalScore
      (computeScores t1 (activeDays (deriveStats t1 b1))
         (protocols (deriveStats t1 b1)) (volumeUSD (deriveStats t1 b1))
         (Some (recencyDays (deriveStats t1 b1))))
    <= finalScore
      (computeScores t2 (activeDays (deriveStats t2 b2))
         (protocols (deriveStats t2 b2)) (volumeUSD (deriveStats t2 b2))
         (Some (recencyDays (deriveStats t2 b2))))).
  { now apply computeScores_le. }
  split; [exact Hfinal|now apply mapScoreToRewards_le].
Qed.

Lemma fetched_resolves (w n : Z) :
  fetched (RpcResolves w n) =
    {| RealData.balance := formatEther_num w; RealData.txCount := IZR n;
       RealData.error := None |}.
Proof. reflexivity. Qed.

Lemma formatEther_num_le (w1 w2 : Z) :
  (w1 <= w2)%Z -> formatEther_num w1 <= formatEther_num w2.
Proof.
  intros H. unfold formatEther_num. apply IZR_le in H.
  apply Rmult_le_compat_r; [|exact H].
  left. apply Rinv_0_lt_compat. lra.
Qed.

(** X11.  More transactions or a larger balance never cost anything: of
    two wallets that the provider reports, the one with at least as many
    transactions and at least as much balance gets at least the activity
    score and at least the reward of the other, whatever the narrative
    calls do. *)
Theorem getRewardEstimate_monotone
    (w1 w2 n1 n2 : Z) (narr1 narr2 : NarrativeOutcome)
    (r1 r2 : EstimationResult) :
  (0 <= n1)%Z -> (n1 <= n2)%Z -> (w1 <= w2)%Z ->
  getRewardEstimate (RpcResolves w1 n1) narr1 = Returns r1 ->
  getRewardEstimate (RpcResolves w2 n2) narr2 = Returns r2 ->
  activityScore r1 <= activityScore r2 /\
  estimatedRewards r1 <= estimatedRewards r2.
Proof.
  intros Hn1 Hn Hw H1 H2.
  destruct (getRewardEstimate_returns (RpcResolves w1 n1) narr1)
    as (r1' & Hr1 & Hnum1).
  destruct (getRewardEstimate_returns (RpcResolves w2 n2) narr2)
    as (r2' & Hr2 & Hnum2).
  rewrite H1 in Hr1. rewrite H2 in Hr2.
  injection Hr1 as <-. injection Hr2 as <-.
  rewrite fetched_resolves in Hnum1, Hnum2.
  change (activityScore r1) with (score_of (numeric_results r1)).
  change (activityScore r2) with (score_of (numeric_results r2)).
  change (estimatedRewards r1) with (reward_of (numeric_results r1)).
  change (estimatedRewards r2) with (reward_of (numeric_results r2)).
  rewrite Hnum1, Hnum2.
  apply pipeline_le; cbn [RealData.txCount RealData.balance].
  - now apply IZR_le.
  - now apply IZR_le.
  - now apply formatEther_num_le.
Qed.

Lemma getRewardEstimate_monotone_witness :
  exists r1 r2,
    getRewardEstimate (RpcResolves 0 3) GenerateContentRejects = Returns r1 /\
    getRewardEstimate (RpcResolves 10 20) ResponseWithoutText = Returns r2 /\
    activityScore r1 <= activityScore r2 /\
    estimatedRewards r1 <= estimatedRewards r2.
Proof.
  eexists. eexists. split; [reflexivity|]. split; [reflexivity|].
  apply (getRewardEstimate_monotone 0 10 3 20 GenerateContentRejects
           ResponseWithoutText); first [lia | reflexivity].
Defined.

Lemma pipeline_ranges (d : RealData.t) :
  0 <= RealData.txCount d ->
  0 <= score_of (pipeline d) <= 1 /\
  (exists k : Z, score_of (pipeline d) = IZR k / 1000) /\
  reward_of (pipeline d) = mapScoreToRewards (score_of (pipeline d)).
Proof.
  intros Ht. unfold pipeline, score_of, reward_of. cbn [fst snd].
  set (t := RealData.txCount d) in *. set (b := RealData.balance d).
  destruct (deriveStats_activeDays_facts t t b b ltac:(lra)) as [Ha0 _].
  destruct (deriveStats_protocols_facts t t b b Ht ltac:(lra))
    as ([Hp0 _] & _).
  destruct (deriveStats_volumeUSD_facts t t b b Ht ltac:(lra) ltac:(lra))
    as ((n & Hn & Hv0) & _).
  assert (Hvn : 0 <= volumeUSD (deriveStats t b))
    by (rewrite Hv0; now apply IZR_le).
  rewrite computeScores_rounded by assumption. cbn [finalScore].
  pose proof (raw_finalScore_unit t (activeDays (deriveStats t b))
                (protocols (deriveStats t b)) (volumeUSD (deriveStats t b))
                (recencyDays (deriveStats t b)) Ht Ha0 Hp0 Hvn) as Hf.
  rewrite raw_finalScore_weighted in Hf.
  split; [now apply round_dp_unit|]. split; [|reflexivity].
  replace 1000 with (10 ^ 3) by lra. apply round_dp_integer.
Qed.

Lemma thousandth_zero_or_more (k : Z) (x : R) :
  x = IZR k / 1000 -> 0 <= x -> x = 0 \/ / 1000 <= x.
Proof.
  intros -> H0.
  assert (Hk : (0 <= k)%Z).
  { apply le_IZR. apply Rmult_le_reg_r with (/ 1000); lra. }
  destruct (Z.eq_dec k 0) as [->|Hne]; [left; lra|right].
  assert (1 <= IZR k) by (apply IZR_le; lia). lra.
Qed.

(** X12.  For every wallet the provider reports with a non-negative
    transaction count, and every outcome of the narrative call, the result
    of [getRewardEstimate] carries an activity score between 0 and 1 that is
    a whole thousandth, a reward that is the mapped score and an integer
    between 0 and 12000, and the transaction count it was given; the reward
    is 0 only when the score is 0. *)
Theorem getRewardEstimate_ranges
    (w n : Z) (narr : NarrativeOutcome) (r : EstimationResult) :
  (0 <= n)%Z ->
  getRewardEstimate (RpcResolves w n) narr = Returns r ->
  0 <= activityScore r <= 1 /\
  (exists k : Z, activityScore r = IZR k / 1000) /\
  activityScore r = finalScore (scoreBreakdown r) /\
  estimatedRewards r = mapScoreToRewards (activityScore r) /\
  (exists k : Z, (0 <= k <= 12000)%Z /\ estimatedRewards r = IZR k) /\
  (estimatedRewards r = 0 <-> activityScore r = 0) /\
  Stats.txCount (stats r) = IZR n.
Proof.
  intros Hn Hr.
  destruct (getRewardEstimate_returns (RpcResolves w n) narr)
    as (r' & Hr' & Hnum).
  rewrite Hr in Hr'. injection Hr' as <-.
  rewrite fetched_resolves in Hnum.
  set (d := {| RealData.balance := formatEther_num w;
               RealData.txCount := IZR n; RealData.error := None |}) in *.
  destruct (pipeline_ranges d) as (Hunit & (k & Hk) & Hmap);
    [now apply IZR_le|].
  assert (Hs : activityScore r = score_of (pipeline d))
    by (rewrite <- Hnum; reflexivity).
  assert (Hw : estimatedRewards r = reward_of (pipeline d))
    by (rewrite <- Hnum; reflexivity).
  assert (Hb : finalScore (scoreBreakdown r) = score_of (pipeline d)).
  { replace (scoreBreakdown r) with (snd (numeric_results r)) by reflexivity.
    rewrite Hnum. reflexivity. }
  assert (Ht : Stats.txCount (stats r) = IZR n).
  { replace (stats r) with (snd (fst (numeric_results r))) by reflexivity.
    rewrite Hnum. reflexivity. }
  rewrite Hs, Hw, Hb, Hmap.
  repeat split; try tauto; eauto.
  - destruct (mapScoreToRewards_integer (score_of (pipeline d)))
      as (m & Hm & Heq).
    exists m. split; [|exact Heq]. split; [exact Hm|].
    apply le_IZR. rewrite <- Heq. apply mapScoreToRewards_upper.
  - intros Hzero.
    destruct (thousandth_zero_or_more k _ Hk (proj1 Hunit)) as [H0|Hpos];
      [exact H0|].
    pose proof (mapScoreToRewards_positive (score_of (pipeline d))
                  ltac:(lra)). lra.
  - intros ->. apply mapScoreToRewards_small. lra.
Qed.

Lemma getRewardEstimate_ranges_witness :
  exists r,
    getRewardEstimate (RpcResolves 5 40) (ResponseText Throws) = Returns r /\
    0 <= activityScore r <= 1.
Proof.
  eexists. split; [reflexivity|].
  apply (getRewardEstimate_ranges 5 40 (ResponseText Throws)); 
    first [lia | reflexivity].
Defined.

(** X13.  A failed fetch cannot be told from an empty wallet: when the
    provider call rejects, [getRewardEstimate] returns what it returns for a
    wallet reported with no balance and no transaction; the error that
    [getOnChainData] notes does not reach the result. *)
Theorem getRewardEstimate_failure_as_empty (narr : NarrativeOutcome) :
  getRewardEstimate RpcRejects narr = getRewardEstimate (RpcResolves 0 0) narr.
Proof.
  unfold getRewardEstimate, getOnChainData.
  cbn [bind try_catch RealData.balance RealData.txCount].
  replace (formatEther_num 0) with 0 by (unfold formatEther_num; lra).
  reflexivity.
Qed.

(** ** Saturation of the pipeline *)

Lemma exp_4_upper : exp 4 <= 81.
Proof.
  apply (exp_halving_upper _ 9); [|lra].
  apply (exp_halving_upper _ 3); [|lra].
  replace (4 / 2 / 2) with 1 by lra. exact exp_le_3.
Qed.

Lemma ln_ge_4 (x : R) : 81 <= x -> 4 <= ln x.
Proof.
  intros Hx. rewrite <- (ln_exp 4).
  apply ln_le; [apply exp_pos|].
  pose proof exp_4_upper. lra.
Qed.

Lemma Math_round_ge (z : Z) (x : R) : IZR z <= x -> IZR z <= Math_round x.
Proof.
  intros H. replace (IZR z) with (Math_round (IZR z)) at 1
    by (apply Math_round_eq; lra).
  now apply Math_round_le.
Qed.

Lemma estimatedActiveDays_full (t : R) :
  15204 <= t -> 365 <= estimatedActiveDays t.
Proof.
  intros Ht.
  apply Rle_trans with (estimatedActiveDays 15204);
    [|now apply estimatedActiveDays_le].
  unfold estimatedActiveDays, MAX_BASE_DAYS, SATURATION_K, Math_exp.
  js_cases. apply (Math_round_ge 365).
  match goal with
  | |- context [exp ?a] => replace a with (Ropp 18.2448) by lra
  end.
  pose proof (exp_neg_upper 18.2448 ltac:(lra)) as Hup.
  assert (/ (1 + 18.2448) <= 0.06).
  { apply Rmult_le_reg_l with (1 + 18.2448); [lra|].
    rewrite Rinv_r by lra. lra. }
  lra.
Qed.

Lemma meaningfulTxCount_large (t : R) :
  15204 <= t -> 12163 <= meaningfulTxCount t.
Proof.
  intros Ht. unfold meaningfulTxCount, Math_floor.
  apply IZR_le, Zfloor_lub. lra.
Qed.

Lemma estimatedProtocols_full (m : R) : 81 <= m -> 8 <= estimatedProtocols m.
Proof.
  intros Hm. unfold estimatedProtocols, Math_min, Math_ceil, Math_log.
  js_eq_cases.
  pose proof (ln_ge_4 (m + 1) ltac:(lra)).
  pose proof (Zceil_bound (ln (m + 1) * 2.1)).
  apply Rmin_glb; lra.
Qed.

Lemma estimatedRecencyDays_full (m : R) :
  81 <= m -> estimatedRecencyDays m <= 7.
Proof.
  intros Hm. unfold estimatedRecencyDays, Math_max, Math_floor, Math_log.
  js_eq_cases.
  pose proof (ln_ge_4 (m + 1) ltac:(lra)) as Hln.
  set (q := 30 / (ln (m + 1) + 0.1)).
  assert (Hq : q < 8).
  { unfold q. apply Rmult_lt_reg_r with (ln (m + 1) + 0.1); [lra|].
    unfold Rdiv. rewrite Rmult_assoc, Rinv_l by lra. lra. }
  pose proof (Zfloor_bound q) as [Hfl _].
  assert (Zfloor q < 8)%Z by (apply lt_IZR; lra).
  assert (IZR (Zfloor q) <= 7) by (apply IZR_le; lia).
  apply Rmax_lub; lra.
Qed.

Lemma deriveStats_volumeUSD_full (t b : R) :
  15204 <= t -> 630957 <= volumeUSD (deriveStats t b).
Proof.
  intros Ht. unfold deriveStats, base_tier, wealth_tier.
  js_cases; cbn [volumeUSD]; apply (Math_round_ge 630957); lra.
Qed.

Lemma mapScoreToRewards_one : mapScoreToRewards 1 = 12000.
Proof.
  unfold mapScoreToRewards.
  cbn [length MAPPING_POINTS Nat.sub mapping_loop]. unfold_points.
  js_cases. apply (Math_round_eq 12000). lra.
Qed.

(** X14.  From 15204 transactions on a wallet has everything: whatever its
    balance and whatever the narrative call does, every score of its
    breakdown is 1, its activity score is 1 and its reward is the full
    12000 tokens. *)
Theorem getRewardEstimate_saturation
    (w n : Z) (narr : NarrativeOutcome) (r : EstimationResult) :
  (15204 <= n)%Z ->
  getRewardEstimate (RpcResolves w n) narr = Returns r ->
  scoreBreakdown r =
    {| txScore := 1; activeDaysScore := 1; protocolScore := 1;
       volumeScore := 1; recencyScore := 1; finalScore := 1 |} /\
  activityScore r = 1 /\
  estimatedRewards r = 12000.
Proof.
  intros Hn Hr.
  destruct (getRewardEstimate_returns (RpcResolves w n) narr)
    as (r' & Hr' & Hnum).
  rewrite Hr in Hr'. injection Hr' as <-.
  rewrite fetched_resolves in Hnum.
  assert (Ht : 15204 <= IZR n) by now apply IZR_le.
  set (b := formatEther_num w) in *.
  assert (Hfull :
    computeScores (IZR n) (activeDays (deriveStats (IZR n) b))
      (protocols (deriveStats (IZR n) b)) (volumeUSD (deriveStats (IZR n) b))
      (Some (recencyDays (deriveStats (IZR n) b))) =
    {| txScore := 1; activeDaysScore := 1; protocolScore := 1;
       volumeScore := 1; recencyScore := 1; finalScore := 1 |}).
  { pose proof (meaningfulTxCount_large _ Ht) as Hm.
    destruct (deriveStats_fields (IZR n) b) as (Ha & Hp & Hd).
    apply computeScores_full.
    - lra.
    - rewrite Ha. now apply estimatedActiveDays_full.
    - rewrite Hp. apply estimatedProtocols_full. lra.
    - now apply deriveStats_volumeUSD_full.
    - rewrite Hd. apply estimatedRecencyDays_full. lra. }
  unfold pipeline in Hnum. cbn [RealData.txCount RealData.balance] in Hnum.
  rewrite Hfull in Hnum. cbn [finalScore] in Hnum.
  rewrite mapScoreToRewards_one in Hnum.
  unfold numeric_results in Hnum.
  injection Hnum as -> -> _ ->. repeat split.
Qed.

Lemma getRewardEstimate_saturation_witness :
  exists r,
    getRewardEstimate (RpcResolves 0 20000) GenerateContentRejects
      = Returns r /\
    activityScore r = 1 /\ estimatedRewards r = 12000.
Proof.
  eexists. split; [reflexivity|].
  apply (getRewardEstimate_saturation 0 20000 GenerateContentRejects);
    first [lia | reflexivity].
Defined.

(** ** The gauge and the breakdown rows *)

(** X15.  For a score between 0 and 1 the two slices of the gauge are not
    negative and add up to 1, the first cell is filled with the colour of
    the score and the second with the grey of the track, and the figure
    under the gauge is an integer from 0 to 100; a figure below 30 comes in
    red, one between 31 and 69 in amber and one above 70 in blue. *)
Theorem ScoreGauge_display (s : R) :
  0 <= s <= 1 ->
  (forall slice, In slice (ScoreGauge.data s) -> 0 <= snd slice) /\
  fold_right Rplus 0 (map snd (ScoreGauge.data s)) = 1 /\
  ScoreGauge.fills s = [ScoreGauge.getColor s; "#F3F4F6"%string] /\
  (exists n : Z, (0 <= n <= 100)%Z /\ ScoreGauge.figure s = IZR n) /\
  (ScoreGauge.figure s < 30 -> ScoreGauge.getColor s = "#EF4444"%string) /\
  (30 < ScoreGauge.figure s < 70 ->
   ScoreGauge.getColor s = "#F59E0B"%string) /\
  (70 < ScoreGauge.figure s -> ScoreGauge.getColor s = "#2563EB"%string).
Proof.
  intros Hs.
  assert (Hfig : exists n : Z, (0 <= n <= 100)%Z /\ ScoreGauge.figure s = IZR n
                               /\ IZR n <= s * 100 + / 2 < IZR n + 1).
  { unfold ScoreGauge.figure, Math_round.
    pose proof (Zfloor_bound (s * 100 + / 2)) as Hb.
    exists (Zfloor (s * 100 + / 2)). split; [|split; [reflexivity|exact Hb]].
    split.
    - apply Zfloor_lub. simpl. lra.
    - assert (Zfloor (s * 100 + / 2) < 101)%Z by (apply lt_IZR; lra). lia. }
  destruct Hfig as (n & Hn & Hfig & Hb).
  split; [|split; [|split; [|split; [|split; [|split]]]]].
  - intros slice [<-|[<-|[]]]; cbn [snd]; lra.
  - cbn. lra.
  - reflexivity.
  - exists n. tauto.
  - rewrite Hfig. intros Hlt.
    assert (n < 30)%Z by now apply lt_IZR.
    assert (IZR n <= 29) by (apply IZR_le; lia).
    unfold ScoreGauge.getColor. js_cases. reflexivity.
  - rewrite Hfig. intros [Hlo Hhi].
    assert (30 < n)%Z by now apply lt_IZR.
    assert (n < 70)%Z by now apply lt_IZR.
    assert (31 <= IZR n) by (apply IZR_le; lia).
    assert (IZR n <= 69) by (apply IZR_le; lia).
    unfold ScoreGauge.getColor. js_cases. reflexivity.
  - rewrite Hfig. intros Hlo.
    assert (70 < n)%Z by now apply lt_IZR.
    assert (71 <= IZR n) by (apply IZR_le; lia).
    unfold ScoreGauge.getColor. js_cases. reflexivity.
Qed.

Lemma ScoreGauge_display_witness :
  exists n : Z, (0 <= n <= 100)%Z /\ ScoreGauge.figure 0.456 = IZR n.
Proof.
  apply (ScoreGauge_display 0.456). lra.
Defined.

Lemma round_dp_2_percent (x : R) :
  0 <= x <= 1 ->
  exists n : Z, (0 <= n <= 100)%Z /\ round_dp 2 x = IZR n / 100.
Proof.
  intros Hx. unfold round_dp, Math_round.
  pose proof (Zfloor_bound (x * 10 ^ 2 + / 2)) as Hb.
  exists (Zfloor (x * 10 ^ 2 + / 2)). split.
  - split.
    + apply Zfloor_lub. simpl. lra.
    + assert (Zfloor (x * 10 ^ 2 + / 2) < 101)%Z by (apply lt_IZR; lra). lia.
  - f_equal. lra.
Qed.

Lemma BreakdownRow_percent (n : Z) :
  (0 <= n <= 100)%Z ->
  BreakdownRow.width (IZR n / 100) = IZR n /\
  BreakdownRow.figure (IZR n / 100) =
    NilZero.string_of_uint (N.to_uint (Z.to_N n)).
Proof.
  intros Hn.
  assert (0 <= IZR n) by (apply IZR_le; lia).
  unfold BreakdownRow.width, BreakdownRow.figure.
  replace (IZR n / 100 * 100) with (IZR n) by lra.
  split; [reflexivity|].
  unfold toFixed. js_cases. unfold fixed_digits.
  rewrite (Zfloor_eq n) by (simpl; lra).
  unfold render_fixed. cbn [Z.of_nat]. now rewrite Z.pow_0_r, Z.div_1_r.
Qed.

(** X16.  A row of the breakdown shows a sub-score without loss: on
    non-negative inputs each sub-score that [computeScores] returns is n
    hundredths for an integer n from 0 to 100, the figure beside the bar of
    its row is n in decimal digits, and the bar is n per cent wide up to
    the slack of the binary64 product. *)
Theorem BreakdownRow_exact
    (txCount activeDays protocols volumeUSD recencyDays : R) :
  0 <= txCount -> 0 <= activeDays -> 0 <= protocols -> 0 <= volumeUSD ->
  let sb := computeScores txCount activeDays protocols volumeUSD
              (Some recencyDays) in
  forall field,
    In field [txScore; activeDaysScore; protocolScore; volumeScore;
              recencyScore] ->
    exists n : Z,
      (0 <= n <= 100)%Z /\
      field sb = IZR n / 100 /\
      BreakdownRow.figure (field sb) =
        NilZero.string_of_uint (N.to_uint (Z.to_N n)) /\
      Rabs (BreakdownRow.width (field sb) - IZR n) <= binary64_slack.
Proof.
  intros Ht Ha Hp Hv sb field Hin. subst sb.
  rewrite computeScores_rounded by assumption.
  pose proof (raw_txScore_unit _ Ht).
  pose proof (raw_activeDaysScore_unit _ Ha).
  pose proof (raw_protocolScore_unit _ Hp).
  pose proof (raw_volumeScore_unit _ Hv).
  pose proof (raw_recencyScore_unit recencyDays).
  cbn [In] in Hin.
  destruct Hin as [<-|[<-|[<-|[<-|[<-|[]]]]]];
    cbn [txScore activeDaysScore protocolScore volumeScore recencyScore];
    match goal with
    | |- context [round_dp 2 ?x] =>
        destruct (round_dp_2_percent x) as (n & Hn & ->); [assumption|]
    end;
    exists n; (split; [exact Hn|split; [reflexivity|]]);
    destruct (BreakdownRow_percent n Hn) as [Hw Hf];
    (split; [exact Hf|]);
    rewrite Hw, Rminus_diag, Rabs_R0;
    left; exact binary64_slack_pos.
Qed.

Lemma BreakdownRow_exact_witness :
  exists n : Z,
    (0 <= n <= 100)%Z /\
    volumeScore (computeScores 12 30 3 500 (Some 10)) = IZR n / 100.
Proof.
  destruct (BreakdownRow_exact 12 30 3 500 10 ltac:(lra) ltac:(lra)
              ltac:(lra) ltac:(lra) volumeScore) as (n & Hn & Heq & _).
  - cbn. auto.
  - exists n. split; [exact Hn|exact Heq].
Defined.

(** ** The page *)

Lemma trim_end_kept (c : Ascii.ascii) (rest : string) :
  App.is_white c = false -> App.trim_end (String c rest) <> EmptyString.
Proof.
  intros Hc. cbn [App.trim_end].
  destruct (App.trim_end rest); [rewrite Hc|]; discriminate.
Qed.

Lemma trim_start_empty (s : string) :
  App.trim_start s = EmptyString <->
  forallb App.is_white (list_ascii_of_string s) = true.
Proof.
  induction s as [|c rest IH]; cbn [App.trim_start list_ascii_of_string forallb].
  - tauto.
  - destruct (App.is_white c) eqn:Hc; cbn [andb].
    + exact IH.
    + split; discriminate.
Qed.

Lemma trim_start_head (s : string) (c : Ascii.ascii) (rest : string) :
  App.trim_start s = String c rest -> App.is_white c = false.
Proof.
  induction s as [|a s' IH]; cbn [App.trim_start]; [discriminate|].
  destruct (App.is_white a) eqn:Ha; [exact IH|].
  intros [= <- _]. exact Ha.
Qed.

Lemma trim_empty (s : string) :
  App.trim s = EmptyString <->
  forallb App.is_white (list_ascii_of_string s) = true.
Proof.
  rewrite <- trim_start_empty. unfold App.trim. split.
  - intros H. destruct (App.trim_start s) as [|c rest] eqn:Hs;
      [reflexivity|].
    exfalso. apply (trim_end_kept c rest); [|exact H].
    now apply (trim_start_head s c rest).
  - intros ->. reflexivity.
Qed.

Lemma submit_begin_none (st : App.t) :
  App.submit_begin st = None <->
  forallb App.is_white (list_ascii_of_string (App.walletInput st)) = true.
Proof.
  rewrite <- trim_empty. unfold App.submit_begin.
  destruct (String.eqb_spec (App.trim (App.walletInput st)) EmptyString);
    split; intros; congruence.
Qed.

(** X17.  [handleSubmit] does nothing, neither a change of the page nor a
    request, exactly when the input consists of white space only (the
    empty input included). *)
Theorem handleSubmit_blank
    (rpc : RpcOutcome) (narr : NarrativeOutcome) (st : App.t) :
  App.handleSubmit rpc narr st = [] <->
  forallb App.is_white (list_ascii_of_string (App.walletInput st)) = true.
Proof.
  rewrite <- submit_begin_none. unfold App.handleSubmit.
  destruct (App.submit_begin st); split; intros; congruence.
Qed.

(** X18.  On any other input [handleSubmit] shows the spinner and then the
    result card, never the error panel: whatever the provider and the
    narrative calls do, the page ends in [RESULT] holding the result of
    [getRewardEstimate], with the input left as it was. *)
Theorem handleSubmit_result
    (rpc : RpcOutcome) (narr : NarrativeOutcome) (st : App.t) :
  forallb App.is_white (list_ascii_of_string (App.walletInput st)) = false ->
  exists loading final r,
    App.handleSubmit rpc narr st = [loading; final] /\
    App.appState loading = App.LOADING /\
    App.result loading = App.result st /\
    getRewardEstimate rpc narr = Returns r /\
    App.appState final = App.RESULT /\
    App.result final = Some r /\
    App.walletInput final = App.walletInput st.
Proof.
  intros Hblank.
  destruct (App.submit_begin st) as [loading|] eqn:Hbegin.
  - destruct (getRewardEstimate_returns rpc narr) as (r & Hr & _).
    exists loading, (App.submit_end (getRewardEstimate rpc narr) loading), r.
    unfold App.handleSubmit. rewrite Hbegin.
    unfold App.submit_begin in Hbegin.
    destruct (String.eqb _ _); [discriminate|].
    injection Hbegin as <-. rewrite Hr. cbn. repeat split.
  - apply submit_begin_none in Hbegin. congruence.
Qed.

Lemma handleSubmit_result_witness :
  exists loading final r,
    App.handleSubmit RpcRejects GenerateContentRejects
      {| App.appState := App.IDLE; App.walletInput := " 0xabc ";
         App.result := None |} = [loading; final] /\
    getRewardEstimate RpcRejects GenerateContentRejects = Returns r /\
    App.appState final = App.RESULT /\
    App.result final = Some r.
Proof.
  destruct (handleSubmit_result RpcRejects GenerateContentRejects
              {| App.appState := App.IDLE; App.walletInput := " 0xabc ";
                 App.result := None |})
    as (loading & final & r & H1 & _ & _ & H2 & H3 & H4 & _).
  - reflexivity.
  - exists loading, final, r. repeat split; assumption.
Defined.

(** X19.  In every state the page can reach, the error panel is not shown,
    a result is held exactly when the page shows the result card, and the
    spinner is shown only for an input that is not blank; resetting leads
    back to the initial state. *)
Theorem App_invariant (st : App.t) :
  App.reachable st ->
  App.appState st <> App.ERROR /\
  (App.appState st = App.RESULT <-> App.result st <> None) /\
  (App.appState st = App.LOADING ->
   forallb App.is_white (list_ascii_of_string (App.walletInput st)) = false) /\
  App.handleReset st = App.initial.
Proof.
  intros Hreach.
  split; [|split; [|split; [|reflexivity]]];
    induction Hreach as [|st st' Hreach IH Hstep].
  - discriminate.
  - destruct Hstep as [st v Hidle|st l Hidle Hb|st rpc n Hl|st Hr].
    + cbn. congruence.
    + unfold App.submit_begin in Hb.
      destruct (String.eqb _ _); [discriminate|].
      injection Hb as <-. discriminate.
    + destruct (getRewardEstimate_returns rpc n) as (r & -> & _).
      discriminate.
    + discriminate.
  - cbn. split; [discriminate|congruence].
  - destruct Hstep as [st v Hidle|st l Hidle Hb|st rpc n Hl|st Hr].
    + cbn. exact IH.
    + unfold App.submit_begin in Hb.
      destruct (String.eqb _ _); [discriminate|].
      injection Hb as <-. cbn.
      destruct IH as [IH1 IH2].
      split; [discriminate|].
      intros Hres. apply IH2 in Hres. congruence.
    + destruct (getRewardEstimate_returns rpc n) as (r & -> & _).
      cbn. split; [discriminate|reflexivity].
    + cbn. split; [discriminate|congruence].
  - discriminate.
  - destruct Hstep as [st v Hidle|st l Hidle Hb|st rpc n Hl|st Hr].
    + cbn. congruence.
    + intros _.
      destruct (forallb App.is_white
                  (list_ascii_of_string (App.walletInput l))) eqn:Hw;
        [|reflexivity].
      assert (Hsame : App.walletInput l = App.walletInput st).
      { unfold App.submit_begin in Hb.
        destruct (String.eqb _ _); [discriminate|].
        now injection Hb as <-. }
      rewrite Hsame in Hw. apply submit_begin_none in Hw. congruence.
    + destruct (getRewardEstimate_returns rpc n) as (r & -> & _).
      discriminate.
    + discriminate.
Qed.

Lemma App_invariant_witness :
  App.appState
    {| App.appState := App.LOADING; App.walletInput := "0xabc";
       App.result := None |} <> App.ERROR.
Proof.
  apply (App_invariant
           {| App.appState := App.LOADING; App.walletInput := "0xabc";
              App.result := None |}).
  eapply App.reachable_step.
  - eapply App.reachable_step; [apply App.reachable_initial|].
    apply (App.step_input App.initial "0xabc"). reflexivity.
  - apply App.step_submit; reflexivity.
Defined.

(** ** Scores that the reward tells apart *)

Lemma Math_round_step (x y : R) : x + 1 <= y -> Math_round x + 1 <= Math_round y.
Proof.
  intros H. unfold Math_round. rewrite <- (plus_IZR _ 1).
  apply IZR_le, Zfloor_lub. rewrite plus_IZR.
  pose proof (Zfloor_bound (x + / 2)). lra.
Qed.

Lemma mapScoreToRewards_step (gap s1 s2 : R) :
  0 <= s1 -> s2 <= 1 ->
  (gap = / 800 \/ (gap = / 5200 /\ 0.25 <= s1)) ->
  s1 + gap <= s2 ->
  mapScoreToRewards s1 + 1 <= mapScoreToRewards s2.
Proof.
  intros H1 H2 Hgap H12.
  assert (Hg : / 5200 <= gap)
    by (destruct Hgap as [->|[-> _]]; lra).
  destruct (Rle_dec s1 0) as [Hz|Hz].
  - assert (Hs1 : s1 = 0) by lra. subst s1.
    destruct Hgap as [->|[_ ?]]; [|lra].
    rewrite mapScoreToRewards_small by lra.
    pose proof (mapScoreToRewards_positive s2 ltac:(lra)). lra.
  - unfold mapScoreToRewards.
    cbn [length MAPPING_POINTS Nat.sub mapping_loop]. unfold_points.
    destruct Hgap as [->|[-> ?]];
      js_cases; apply Math_round_step; lra.
Qed.

(** X20.  On [0,1] the reward separates scores that are far enough apart:
    two scores at least 1/500 apart get different rewards, and from a score
    of 0.25 on so do any two scores a thousandth apart, the step of the
    activity score. *)
Theorem mapScoreToRewards_separates (s1 s2 : R) :
  0 <= s1 -> s2 <= 1 ->
  (s1 + / 500 <= s2 -> mapScoreToRewards s1 < mapScoreToRewards s2) /\
  (0.25 <= s1 -> s1 + 0.001 <= s2 ->
   mapScoreToRewards s1 < mapScoreToRewards s2).
Proof.
  intros H1 H2. split.
  - intros H12.
    pose proof (mapScoreToRewards_step (/ 800) s1 s2 H1 H2
                  ltac:(left; reflexivity) ltac:(lra)). lra.
  - intros Hq H12.
    pose proof (mapScoreToRewards_step (/ 5200) s1 s2 H1 H2
                  ltac:(right; split; [reflexivity|exact Hq])
                  ltac:(lra)). lra.
Qed.

Lemma mapScoreToRewards_separates_witness :
  mapScoreToRewards 0.1 < mapScoreToRewards 0.102 /\
  mapScoreToRewards 0.612 < mapScoreToRewards 0.613.
Proof.
  split.
  - apply (proj1 (mapScoreToRewards_separates 0.1 0.102 ltac:(lra)
                    ltac:(lra))). lra.
  - apply (proj2 (mapScoreToRewards_separates 0.612 0.613 ltac:(lra)
                    ltac:(lra))); lra.
Defined.
